(** * jebio: a client of the JEB malware sharing network

    Shallow embedding of [scripts/jebio/jebio.py] and the properties of
    its credential lookup, its [check] and [download] operations and the
    entry list its command line builds.

    The script talks to three collaborators that are not part of it: the
    HTTP library, the file system and the zip library.  They appear here
    as a [platform] of oracles and a [world] that is threaded through
    every call, so that "which requests were sent" and "which files
    exist afterwards" are ordinary values one can state theorems about.

    Python [bytes] are byte strings, and a Python [str] is held as the
    byte string of its UTF-8 encoding.  What the script prints (the
    [verbose] messages, the per-entry report lines) is not part of the
    world. *)

From Stdlib Require Import ZArith String Ascii List DecimalString Bool Lia.
From Stdlib Require Import Floats.SpecFloat.
From stdpp Require Import base option gmap strings list.

Local Open Scope string_scope.
Local Open Scope list_scope.
Local Open Scope Z_scope.

Set Warnings "-register-all".

(** ** Python values *)

Abbreviation bytes := string (only parsing).

(** What [json] decoding yields, which is also what a dynamically typed
    variable of the script can hold. *)
Inductive value : Type :=
| VNone
| VBool (b : bool)
| VInt (n : Z)
| VFloat (f : spec_float)
| VStr (s : string)
| VList (l : list value)
| VDict (kv : list (string * value)).

(** The exceptions the script can meet.  [RaiseStr] is the outcome of the
    script's own [raise '<text>'] statements: a [str] is not an exception
    class, the interpreter reports a [TypeError] at that statement and
    the text names the statement. *)
Inductive exn : Type :=
| RaiseStr (text : string)
| TypeError
| KeyError (key : string)
| AttributeError
| IndexError
| FileNotFoundError (path : string)
| GetoptError
| SystemExit (code : Z)
| LibraryError (what : string).

(** [except Exception] in the command-line loop: [SystemExit] derives from
    [BaseException] only, everything else is caught. *)
Definition is_Exception (e : exn) : bool :=
  match e with
  | SystemExit _ => false
  | _ => true
  end.

(** ** String methods *)

Module Str.

Definition code (c : ascii) : nat := nat_of_ascii c.

Definition lower_char (c : ascii) : ascii :=
  if (65 <=? code c)%nat && (code c <=? 90)%nat
  then ascii_of_nat (code c + 32) else c.

(** [s.lower()] on text in ASCII: the letters A to Z (bytes 65 to 90)
    go to a to z and every other byte stays.  Python lower-cases the
    letters beyond ASCII too (U+212A KELVIN SIGN becomes k), which this
    function leaves alone: the statements that depend on the case of a
    word ask for that word to be in ASCII. *)
Fixpoint lower (s : string) : string :=
  match s with
  | EmptyString => EmptyString
  | String c s' => String (lower_char c) (lower s')
  end.

(** The one-byte whitespace of [c.isspace()]: tab, line feed, vertical
    tab, form feed, carriage return, the four separators FS GS RS US,
    and space. *)
Definition isspace (c : ascii) : bool :=
  ((9 <=? code c)%nat && (code c <=? 13)%nat)
  || ((28 <=? code c)%nat && (code c <=? 32)%nat).

(** The other whitespace characters of Unicode, by the three bytes of
    their encoding: U+1680, U+2000 to U+200A, U+2028, U+2029, U+202F,
    U+205F and U+3000. *)
Definition isspace3 (a b c : nat) : bool :=
  ((a =? 225) && (b =? 154) && (c =? 128))%nat
  || ((a =? 226) && (b =? 128)
      && (((128 <=? c) && (c <=? 138)) || (c =? 168) || (c =? 169) || (c =? 175)))%nat
  || ((a =? 226) && (b =? 129) && (c =? 159))%nat
  || ((a =? 227) && (b =? 128) && (c =? 128))%nat.

(** How many bytes the whitespace character at the head of [s] takes:
    one, two (U+0085 and U+00A0) or three, and 0 when [s] does not start
    with whitespace. *)
Definition space_len (s : string) : nat :=
  match s with
  | EmptyString => 0
  | String a s1 =>
      if isspace a then 1
      else
        match s1 with
        | EmptyString => 0
        | String b s2 =>
            if ((code a =? 194) && ((code b =? 133) || (code b =? 160)))%nat then 2
            else
              match s2 with
              | EmptyString => 0
              | String c _ => if isspace3 (code a) (code b) (code c) then 3 else 0
              end
        end
  end.

Fixpoint lstrip (s : string) : string :=
  match s with
  | EmptyString => EmptyString
  | String _ s1 =>
      match space_len s with
      | 1%nat => lstrip s1
      | 2%nat => match s1 with
                 | String _ s2 => lstrip s2
                 | EmptyString => s
                 end
      | 3%nat => match s1 with
                 | String _ (String _ s3) => lstrip s3
                 | _ => s
                 end
      | _ => s
      end
  end.

(** Whitespace and nothing else. *)
Definition isblank (s : string) : bool := String.eqb (lstrip s) EmptyString.

Fixpoint rstrip (s : string) : string :=
  match s with
  | EmptyString => EmptyString
  | String c s' => if isblank s then EmptyString else String c (rstrip s')
  end.

(** [s.strip()] *)
Definition strip (s : string) : string := rstrip (lstrip s).

(** [s.startswith(p)] *)
Fixpoint startswith (p s : string) : bool :=
  match p, s with
  | EmptyString, _ => true
  | String a p', String b s' => Ascii.eqb a b && startswith p' s'
  | String _ _, EmptyString => false
  end.

(** [s.split(sep)] for a one-character separator: never empty, the
    empty string splits into one empty field. *)
Fixpoint split (sep : ascii) (s : string) : list string :=
  match s with
  | EmptyString => [EmptyString]
  | String c s' =>
      if Ascii.eqb c sep then EmptyString :: split sep s'
      else match split sep s' with
           | fld :: flds => String c fld :: flds
           | [] => [String c EmptyString]
           end
  end.

Definition LF : ascii := "010"%char.
Definition CR : ascii := "013"%char.

(** Text mode reading: CR LF and a lone CR both become LF. *)
Fixpoint universal_newlines (s : string) : string :=
  match s with
  | EmptyString => EmptyString
  | String c s' =>
      if Ascii.eqb c CR then
        match s' with
        | String d s'' =>
            if Ascii.eqb d LF then String LF (universal_newlines s'')
            else String LF (universal_newlines s')
        | EmptyString => String LF EmptyString
        end
      else String c (universal_newlines s')
  end.

(** [f.readlines()] on translated text: every line keeps its LF; a last
    line without one is a line too. *)
Fixpoint readlines (s : string) : list string :=
  match s with
  | EmptyString => []
  | String c s' =>
      if Ascii.eqb c LF then String c EmptyString :: readlines s'
      else match readlines s' with
           | l :: ls => String c l :: ls
           | [] => [String c EmptyString]
           end
  end.

(** [str(n)] for an integer. *)
Definition of_Z (n : Z) : string := NilZero.string_of_int (Z.to_int n).

End Str.

(** ** Option parsing

    [getopt.getopt(args, shortopts)] of the standard library, called
    without long options. *)

Module Getopt.

(** [short_has_arg(opt, shortopts)]: is the letter declared, and is it
    followed by a colon. *)
Fixpoint short_has_arg (opt : ascii) (shortopts : string) : exn + bool :=
  match shortopts with
  | EmptyString => inl GetoptError
  | String c rest =>
      if Ascii.eqb opt c && negb (Ascii.eqb c ":")
      then inr (Str.startswith ":" rest)
      else short_has_arg opt rest
  end.

(** [do_shorts]: the letters of one [-abc] cluster.  [next] is the
    argument that follows the cluster, if any; the boolean tells whether
    an option took it as its value. *)
Fixpoint do_shorts (optstring shortopts : string) (next : option string)
  : exn + (list (string * string) * bool) :=
  match optstring with
  | EmptyString => inr ([], false)
  | String opt rest =>
      match short_has_arg opt shortopts with
      | inl e => inl e
      | inr true =>
          if String.eqb rest "" then
            match next with
            | None => inl GetoptError
            | Some optarg => inr ([(String "-" (String opt ""), optarg)], true)
            end
          else inr ([(String "-" (String opt ""), rest)], false)
      | inr false =>
          match do_shorts rest shortopts next with
          | inl e => inl e
          | inr (opts, took) => inr ((String "-" (String opt ""), "") :: opts, took)
          end
      end
  end.

Definition tail (s : string) : string :=
  match s with
  | EmptyString => EmptyString
  | String _ s' => s'
  end.

(** The scan stops at the first argument that is not an option, at a
    lone [-] and after [--]; a [--long] option is never recognised. *)
Fixpoint getopt (args : list string) (shortopts : string)
  : exn + (list (string * string) * list string) :=
  match args with
  | [] => inr ([], [])
  | a :: rest =>
      if Str.startswith "-" a && negb (String.eqb a "-") then
        if String.eqb a "--" then inr ([], rest)
        else if Str.startswith "--" a then inl GetoptError
        else
          match do_shorts (tail a) shortopts (head rest) with
          | inl e => inl e
          | inr (opts, took) =>
              let more :=
                if took : bool then
                  match rest with
                  | _ :: rest' => getopt rest' shortopts
                  | [] => inr ([], [])
                  end
                else getopt rest shortopts in
              match more with
              | inl e => inl e
              | inr (opts', args') => inr (opts ++ opts', args')
              end
          end
      else inr ([], args)
  end.

End Getopt.

(** ** Operators on values *)

Definition float_is_zero (f : spec_float) : bool :=
  match f with
  | S754_zero _ => true
  | _ => false
  end.

(** Truth value of an object, as [if x] and [not x] take it. *)
Definition truthy (v : value) : bool :=
  match v with
  | VNone => false
  | VBool b => b
  | VInt n => negb (n =? 0)
  | VFloat f => negb (float_is_zero f)
  | VStr s => negb (String.eqb s "")
  | VList l => match l with [] => false | _ => true end
  | VDict kv => match kv with [] => false | _ => true end
  end.

(** [v != 0]: numbers compare by value ([False] is 0, and so are both
    float zeros), anything else differs from 0. *)
Definition ne_zero (v : value) : bool :=
  match v with
  | VBool b => b
  | VInt n => negb (n =? 0)
  | VFloat f => negb (float_is_zero f)
  | _ => true
  end.

(** First binding of a key in a decoded object. *)
Fixpoint assoc (k : string) (kv : list (string * value)) : option value :=
  match kv with
  | [] => None
  | (k', v) :: kv' => if String.eqb k k' then Some v else assoc k kv'
  end.

(** ['%s' % v].  A float other than zero and a container that is not
    empty never get this far in [download] (they raise at the [isfile]
    test), so only their falsy forms are rendered. *)
Definition format_s (v : value) : string :=
  match v with
  | VNone => "None"
  | VBool true => "True"
  | VBool false => "False"
  | VInt n => Str.of_Z n
  | VFloat (S754_zero true) => "-0.0"
  | VFloat _ => "0.0"
  | VStr s => s
  | VList _ => "[]"
  | VDict _ => "{}"
  end.

(** ** The world and the platform *)

Inductive request : Type :=
| GET (url : string)
| POST (url : string) (field : string) (body : bytes).

Record response : Type := Response {
  status_code : Z;
  content : bytes
}.

(** [Response.ok], which is also the truth value of a response: no
    client or server error status. *)
Definition ok (r : response) : bool :=
  negb ((400 <=? status_code r) && (status_code r <? 600)).

(** What reading one entry of an archive with a password gives.  The
    zip library opens the entry first, and a wrong password is [Refused]
    there, before the target file is touched; it then opens the target
    for writing and copies, and an entry that turns out [Broken] (a bad
    checksum, a cut stream) has by then left [partial] in the target. *)
Inductive unpacked : Type :=
| Data (data : bytes)
| Refused (e : exn)
| Broken (e : exn) (partial : bytes).

(** One entry of a zip archive.  [m_name] is the name the archive lists,
    as [namelist()] returns it.  [m_target] is where [extractall] puts
    the entry: the path the library makes of the name (drive and leading
    slashes dropped, dot-dot parts removed), relative to the working
    directory, or nothing for a directory entry, which becomes a
    directory and no file.  An entry written over the archive while it
    is open is left out. *)
Record member : Type := Member {
  m_name : string;
  m_target : option string;
  m_read : bytes -> unpacked
}.

(** Files by path, and the requests sent so far (oldest first). *)
Record world : Type := World {
  files : gmap string bytes;
  sent : list request
}.

Record platform : Type := Platform {
  (** the [APIKEY] global the user is told to edit *)
  APIKEY : string;
  (** [os.environ] *)
  environ : gmap string string;
  (** the remote end: what a request gets, given the earlier ones *)
  server : list request -> request -> exn + response;
  (** [Response.json()] on a body *)
  json_loads : bytes -> exn + value;
  (** [hashlib.sha256(data).hexdigest()] *)
  sha256_hexdigest : bytes -> string;
  (** [ZipFile(path)] on the bytes of the file *)
  zip_entries : bytes -> exn + list member;
  (** [os.path.isfile(fd)] and [open(fd, 'rb').read()] on a descriptor *)
  fd_isfile : Z -> exn + bool;
  fd_read : Z -> exn + bytes;
  (** what [open(path, 'wb')] raises, if it does, given the files there
      are: a directory part that is missing, a name that cannot be a
      path, a refusal of the system *)
  open_wb : gmap string bytes -> string -> option exn;
  (** text mode reading: the bytes of a file as text in the encoding of
      the locale, or the decoding error *)
  decode_text : bytes -> exn + string
}.

(** ** Computations: state and exceptions

    A statement either returns or raises, and in both cases leaves a
    world behind. *)

Definition IO (A : Type) : Type := world -> (exn + A) * world.

Definition ret {A} (a : A) : IO A := fun w => (inr a, w).

Definition raise {A} (e : exn) : IO A := fun w => (inl e, w).

Definition bind {A B} (m : IO A) (k : A -> IO B) : IO B :=
  fun w =>
    match m w with
    | (inl e, w') => (inl e, w')
    | (inr a, w') => k a w'
    end.

Definition lift {A} (r : exn + A) : IO A := fun w => (r, w).

Notation "x <- m ;; k" := (bind m (fun x => k))
  (at level 100, m at next level, right associativity).
Notation "m ;;; k" := (bind m (fun _ => k))
  (at level 100, right associativity).

(** [try: m except Exception: traceback.print_exc()] *)
Definition try_except {A} (m : IO A) : IO unit :=
  fun w =>
    match m w with
    | (inl e, w') => if is_Exception e then (inr tt, w') else (inl e, w')
    | (inr _, w') => (inr tt, w')
    end.

(** What [getApikey] ends in when no key is to be had. *)
Definition MissingCredential : exn :=
  RaiseStr "Your need a JEB.IO API key to execute this command.".

Definition BASE : string := "https://www.pnfsoftware.com/io/api".

(** The three query strings, ['%s/file/...' % (BASE, key, h)]. *)
Definition check_url (key h : string) : string :=
  BASE +:+ "/file/check?apikey=" +:+ key +:+ "&h=" +:+ h.

Definition download_url (key h : string) : string :=
  BASE +:+ "/file/download?apikey=" +:+ key +:+ "&h=" +:+ h.

Definition upload_url (key : string) : string :=
  BASE +:+ "/file/upload?apikey=" +:+ key.

Section Jebio.

Variable P : platform.

(** *** Library calls *)

(** [requests.get(url)]: the request goes out whether or not an answer
    comes back. *)
Definition requests_get (url : string) : IO response :=
  fun w =>
    (server P (sent w) (GET url),
     {| files := files w; sent := sent w ++ [GET url] |}).

Definition requests_post (url field : string) (body : bytes) : IO response :=
  fun w =>
    (server P (sent w) (POST url field body),
     {| files := files w; sent := sent w ++ [POST url field body] |}).

(** [r.json()] *)
Definition json (r : response) : IO value := lift (json_loads P (content r)).

(** [os.path.isfile(p)]: a string names a file of the directory, an
    integer (and so a bool) a descriptor, anything else is refused. *)
Definition isfile (p : value) : IO bool :=
  match p with
  | VStr s => fun w => (inr (bool_decide (is_Some (files w !! s))), w)
  | VInt n => lift (fd_isfile P n)
  | VBool b => lift (fd_isfile P (Z.b2z b))
  | _ => raise TypeError
  end.

(** [open(p, 'rb')] followed by [f.read()] *)
Definition read_binary (p : value) : IO bytes :=
  match p with
  | VStr s =>
      fun w =>
        match files w !! s with
        | Some data => (inr data, w)
        | None => (inl (FileNotFoundError s), w)
        end
  | VInt n => lift (fd_read P n)
  | VBool b => lift (fd_read P (Z.b2z b))
  | _ => raise TypeError
  end.

(** [open(path, 'wb')] followed by [f.write(data)] *)
Definition write_binary (path : string) (data : bytes) : IO unit :=
  fun w =>
    match open_wb P (files w) path with
    | Some e => (inl e, w)
    | None => (inr tt, {| files := <[path := data]> (files w); sent := sent w |})
    end.

(** [os.unlink(path)] *)
Definition unlink (path : string) : IO unit :=
  fun w =>
    match files w !! path with
    | Some _ => (inr tt, {| files := delete path (files w); sent := sent w |})
    | None => (inl (FileNotFoundError path), w)
    end.

(** [ZipFile(path)] *)
Definition ZipFile (path : string) : IO (list member) :=
  data <- read_binary (VStr path) ;;
  lift (zip_entries P data).

(** [zipfile.extractall(pwd=...)]: every entry in listing order, each
    to its target; a directory entry writes no file; a failing entry
    stops the run and leaves the earlier ones written. *)
Fixpoint extractall (ms : list member) (pwd : bytes) : IO unit :=
  match ms with
  | [] => ret tt
  | m :: ms' =>
      match m_target m with
      | None => extractall ms' pwd
      | Some path =>
          match m_read m pwd with
          | Refused e => raise e
          | Broken e partial => write_binary path partial ;;; raise e
          | Data data => write_binary path data ;;; extractall ms' pwd
          end
      end
  end.

(** [zipfile.namelist()] *)
Definition namelist (ms : list member) : list string := map m_name ms.

(** [l[0]] *)
Definition first (l : list string) : IO string :=
  match l with
  | x :: _ => ret x
  | [] => raise IndexError
  end.

(** [r[key]] *)
Definition getitem (r : value) (key : string) : IO value :=
  match r with
  | VDict kv =>
      match assoc key kv with
      | Some v => ret v
      | None => raise (KeyError key)
      end
  | _ => raise TypeError
  end.

(** [r.get(key)] *)
Definition get (r : value) (key : string) : IO value :=
  match r with
  | VDict kv => ret (default VNone (assoc key kv))
  | _ => raise AttributeError
  end.

(** [x.lower()] *)
Definition lower (x : value) : IO string :=
  match x with
  | VStr s => ret (Str.lower s)
  | _ => raise AttributeError
  end.

(** [x + suffix] with a [str] on the right *)
Definition add_str (x : value) (suffix : string) : IO string :=
  match x with
  | VStr s => ret (s +:+ suffix)
  | _ => raise TypeError
  end.

(** *** The script *)

(** The lookup reads the argument, the environment and the global, and
    changes nothing: it is a function of the platform. *)
Definition getApikey (apikey : string) : exn + string :=
  if truthy (VStr apikey) then inr apikey
  else match environ P !! "JEBIO_APIKEY" with
       | Some k => inr k
       | None =>
           if truthy (VStr (APIKEY P)) then inr (APIKEY P)
           else inl MissingCredential
       end.

Definition check (h : string) (apikey : string) (verbose : bool) : IO value :=
  key <- lift (getApikey apikey) ;;
  let url := check_url key h in
  r <- requests_get url ;;
  json r.

Definition download (h : string) (apikey : string) (extract verbose : bool)
  : IO value :=
  if negb (truthy (VStr h)) then raise (RaiseStr "A hash must be provided") else
  r <- check h apikey verbose ;;
  absent <- (if negb (truthy r) then ret true
             else code <- getitem r "code" ;; ret (ne_zero code)) ;;
  if absent : bool then ret VNone else
  h0 <- get r "sha256hash" ;;
  present <- (if truthy h0 then isfile h0 else ret false) ;;
  same <- (if present : bool then
             data <- read_binary h0 ;;
             let actual_hash := sha256_hexdigest P data in
             h0l <- lower h0 ;;
             ret (String.eqb (Str.lower actual_hash) h0l)
           else ret false) ;;
  if same : bool then ret h0 else
  key <- lift (getApikey apikey) ;;
  let url := download_url key (format_s h0) in
  r <- requests_get url ;;
  if negb (ok r) || negb (ok r) || negb (truthy (VStr (content r)))
  then ret VNone else
  outpath <- add_str h0 ".zip" ;;
  write_binary outpath (content r) ;;;
  if extract then
    zipfile <- ZipFile outpath ;;
    extractall zipfile "infected" ;;;
    outpath2 <- first (namelist zipfile) ;;
    unlink outpath ;;;
    ret (VStr outpath2)
  else ret (VStr outpath).

Definition upload (filepath : string) (apikey : string) (verbose : bool)
  : IO value :=
  key <- lift (getApikey apikey) ;;
  let url := upload_url key in
  body <- read_binary (VStr filepath) ;;
  r <- requests_post url "ufile" body ;;
  json r.

(** *** The command line *)

(** [sys.exit(-1)] after the usage text *)
Definition usage {A} : IO A := raise (SystemExit (-1)).

(** [open(path)] in text mode followed by [f.readlines()] *)
Definition read_lines (path : string) : IO (list string) :=
  data <- read_binary (VStr path) ;;
  text <- lift (decode_text P data) ;;
  ret (Str.readlines (Str.universal_newlines text)).

(** The body of the loop over the lines of a list file. *)
Fixpoint keep_lines (lines hlist : list string) : list string :=
  match lines with
  | [] => hlist
  | line :: lines' =>
      let line := Str.strip line in
      if truthy (VStr line) && negb (Str.startswith "#" line)
      then keep_lines lines' (hlist ++ [line])
      else keep_lines lines' hlist
  end.

Record settings : Type := Settings {
  verbose : bool;
  extract : bool;
  hlist : list string
}.

(** The loop over the parsed options. *)
Fixpoint scan_opts (opts : list (string * string)) (st : settings) : IO settings :=
  match opts with
  | [] => ret st
  | (o, a) :: opts' =>
      if String.eqb o "-v" then
        scan_opts opts' (Settings true (extract st) (hlist st))
      else if String.eqb o "-x" then
        scan_opts opts' (Settings (verbose st) true (hlist st))
      else if String.eqb o "-f" then
        lines <- read_lines a ;;
        scan_opts opts' (Settings (verbose st) (extract st) (keep_lines lines (hlist st)))
      else usage
  end.

(** [for arg in args: hlist.extend(arg.split(','))] *)
Fixpoint extend_args (args hlist : list string) : list string :=
  match args with
  | [] => hlist
  | arg :: args' => extend_args args' (hlist ++ Str.split "," arg)
  end.

(** [list(set(hlist))]: some enumeration without repetition; the one
    taken here is the set library's, the script's is unspecified. *)
Definition list_set (hlist : list string) : list string :=
  elements (list_to_set (C := gset string) hlist).

(** From the option parsing to the de-duplicated entry list. *)
Definition settings_of (argv : list string) : IO settings :=
  match Getopt.getopt (drop 2 argv) "vxf:" with
  | inl _ => usage
  | inr (opts, args) =>
      st <- scan_opts opts (Settings false false []) ;;
      ret (Settings (verbose st) (extract st)
             (list_set (extend_args args (hlist st))))
  end.

Fixpoint for_each {A} (l : list A) (body : A -> IO unit) : IO unit :=
  match l with
  | [] => ret tt
  | x :: l' => body x ;;; for_each l' body
  end.

Definition main (argv : list string) : IO unit :=
  match argv with
  | [] | [_] => usage
  | _ :: mode :: _ =>
      let action := Str.lower mode in
      st <- settings_of argv ;;
      if String.eqb action "check" then
        for_each (hlist st) (fun h => try_except (check h "" (verbose st)))
      else if String.eqb action "download" then
        for_each (hlist st)
          (fun h => try_except (download h "" (extract st) (verbose st)))
      else if String.eqb action "upload" then
        for_each (hlist st) (fun filepath => try_except (upload filepath "" (verbose st)))
      else usage
  end.

End Jebio.

(** ** Bytes by their codes *)

(** A byte string by the codes of its bytes. *)
Definition of_codes (l : list nat) : string :=
  fold_right (fun n s => String (ascii_of_nat n) s) EmptyString l.

(** ** Sample platforms

    Small concrete collaborators on which the statements below are run. *)

Module Sample.

Definition dq : string := String (ascii_of_nat 34) "".

(** The body [{"code": n}] *)
Definition code_body (n : string) : bytes :=
  "{" +:+ dq +:+ "code" +:+ dq +:+ ": " +:+ n +:+ "}".

(** The body [{"code": 0, "sha256hash": "<h0>"}] *)
Definition found_body (h0 : string) : bytes :=
  "{" +:+ dq +:+ "code" +:+ dq +:+ ": 0, "
      +:+ dq +:+ "sha256hash" +:+ dq +:+ ": " +:+ dq +:+ h0 +:+ dq +:+ "}".

(** A decoder that knows the bodies of a table and rejects the rest. *)
Definition loads (table : list (bytes * value)) (body : bytes) : exn + value :=
  match assoc body table with
  | Some v => inr v
  | None => inl (LibraryError "JSONDecodeError")
  end.

Definition table : list (bytes * value) :=
  [ ("{}", VDict []);
    ("null", VNone);
    (code_body "0", VDict [("code", VInt 0)]);
    (code_body "1", VDict [("code", VInt 1)]);
    ("{" +:+ dq +:+ "sha256hash" +:+ dq +:+ ": null}", VDict [("sha256hash", VNone)]);
    (found_body "c0ffee", VDict [("code", VInt 0); ("sha256hash", VStr "c0ffee")]) ].

(** A server that answers every [file/check] with [checked], every
    other [GET] with [served], and drops the connection on a [POST]. *)
Definition serve (checked served : response) (_ : list request) (rq : request)
  : exn + response :=
  match rq with
  | GET url =>
      if Str.startswith (BASE +:+ "/file/check?") url then inr checked
      else inr served
  | POST _ _ _ => inl (LibraryError "ConnectionError")
  end.

(** An archive of two entries; the first opens with [infected] only. *)
Definition first_entry : member :=
  Member "sample.bin" (Some "sample.bin")
    (fun pwd => if String.eqb pwd "infected" then Data "MZ"
                else Refused (LibraryError "RuntimeError")).

Definition second_entry : member :=
  Member "notes.txt" (Some "notes.txt") (fun _ => Data "hello").

Definition two_entries : list member := [first_entry; second_entry].

Definition unzip (body : bytes) : exn + list member :=
  if String.eqb body "PK" then inr two_entries
  else inl (LibraryError "BadZipFile").

Definition platform_of (key : string) (env : gmap string string)
    (checked served : response) : platform :=
  {| APIKEY := key;
     environ := env;
     server := serve checked served;
     json_loads := loads table;
     sha256_hexdigest := fun _ => "C0FFEE";
     zip_entries := unzip;
     fd_isfile := fun _ => inr false;
     fd_read := fun _ => inl (LibraryError "OSError");
     open_wb := fun _ _ => None;
     decode_text := fun data => inr data |}.

Definition no_env : gmap string string := ∅.
Definition env_key (k : string) : gmap string string := {[ "JEBIO_APIKEY" := k ]}.

Definition empty_world : world := World ∅ [].

(** The list file of the command-line example: a comment, blank lines
    and one entry. *)
Definition list_txt : bytes :=
  "# comment" +:+ String Str.LF (String Str.LF ("   " +:+ String Str.LF
    ("abc123" +:+ String Str.LF ""))).

End Sample.

(** ** More sample platforms *)

Module Depot.

(** A server that also takes uploads: every [POST] gets [posted]. *)
Definition serve (checked served posted : response) (hist : list request)
    (rq : request) : exn + response :=
  match rq with
  | GET _ => Sample.serve checked served hist rq
  | POST _ _ _ => inr posted
  end.

(** The bodies of [Sample.table] and the array [[1]]. *)
Definition table : list (bytes * value) :=
  ("[1]", VList [VInt 1]) :: Sample.table.

Definition platform_of (key : string) (env : gmap string string)
    (checked served posted : response) : platform :=
  {| APIKEY := key;
     environ := env;
     server := serve checked served posted;
     json_loads := Sample.loads table;
     sha256_hexdigest := fun _ => "C0FFEE";
     zip_entries := Sample.unzip;
     fd_isfile := fun _ => inr false;
     fd_read := fun _ => inl (LibraryError "OSError");
     open_wb := fun _ _ => None;
     decode_text := fun data => inr data |}.

(** The service knows nothing: every check says [{"code": 1}]. *)
Definition unknown : response := Response 200 (Sample.code_body "1").

(** The service knows [c0ffee]. *)
Definition known_c0ffee : response := Response 200 (Sample.found_body "c0ffee").

Definition archive : response := Response 200 "PK".

(** A list file with the works: a comment, an empty line, a line of
    blanks, an entry with blanks around it and CR LF after it, a comment
    after a blank, an entry between a no-break space and an em space
    that ends at a lone CR, and a last entry without a line end. *)
Definition list_txt : bytes :=
  "# comment" +:+ of_codes [10; 10; 32; 32; 32; 10]%nat
  +:+ "  abc123 " +:+ of_codes [9; 13; 10]%nat
  +:+ " # not an entry" +:+ of_codes [10]%nat
  +:+ of_codes [194; 160]%nat +:+ "def456" +:+ of_codes [226; 128; 131; 13]%nat
  +:+ "ghi789".

(** An archive that holds the sample under its canonical name. *)
Definition canonical_entry : member :=
  Member "c0ffee" (Some "c0ffee")
    (fun pwd => if String.eqb pwd "infected" then Data "MZ"
                else Refused (LibraryError "RuntimeError")).

Definition unzip_canonical (body : bytes) : exn + list member :=
  if String.eqb body "PK" then inr [canonical_entry]
  else inl (LibraryError "BadZipFile").

(** A service that knows [c0ffee] and serves that archive. *)
Definition canonical : platform :=
  {| APIKEY := "";
     environ := Sample.env_key "K";
     server := serve known_c0ffee archive unknown;
     json_loads := Sample.loads table;
     sha256_hexdigest := fun _ => "C0FFEE";
     zip_entries := unzip_canonical;
     fd_isfile := fun _ => inr false;
     fd_read := fun _ => inl (LibraryError "OSError");
     open_wb := fun _ _ => None;
     decode_text := fun data => inr data |}.



End Depot.

(** ** Vocabulary of the statements *)

(** The reading of C6 that fails: a response outside 2xx makes [check]
    raise. *)
Definition check_raises_on_bad_status : Prop :=
  ∀ (P : platform) (h apikey : string) (verbose : bool) (w : world)
    (key : string) (r : response),
    getApikey P apikey = inr key →
    server P (sent w) (GET (check_url key h)) = inr r →
    ¬ (200 <= status_code r < 300) →
    ∃ e w', check P h apikey verbose w = (inl e, w').

(** The test of lines 56 to 63 on a canonical hash that is a string: a
    file of that name whose digest is the name, letter case apart. *)
Definition already_present (P : platform) (w : world) (h0 : string) : bool :=
  truthy (VStr h0)
  && match files w !! h0 with
     | Some data => String.eqb (Str.lower (sha256_hexdigest P data)) (Str.lower h0)
     | None => false
     end.

(** The files after an [extractall] that goes through: every file
    entry is written at its target, in listing order, a later entry
    replacing an earlier one with the same target. *)
Fixpoint unpack (ms : list member) (pwd : bytes) (fs : gmap string bytes)
  : gmap string bytes :=
  match ms with
  | [] => fs
  | m :: ms' =>
      unpack ms' pwd
        (match m_target m, m_read m pwd with
         | Some path, Data data => <[path := data]> fs
         | _, _ => fs
         end)
  end.

(** An entry the run of [extractall] gets past: a directory entry, or a
    file entry that reads in full. *)
Definition readable (pwd : bytes) (m : member) : Prop :=
  m_target m = None ∨ ∃ data, m_read m pwd = Data data.


(** A word of ASCII characters only, on which [Str.lower] is the
    [lower()] of Python. *)
Fixpoint is_ascii (s : string) : Prop :=
  match s with
  | EmptyString => True
  | String c s' => (Str.code c < 128)%nat ∧ is_ascii s'
  end.

(** A path that can be opened for writing, whatever files there are. *)
Definition can_write (P : platform) (path : string) : Prop :=
  ∀ fs, open_wb P fs path = None.

(** The targets of the file entries can all be written. *)
Definition can_unpack (P : platform) (ms : list member) : Prop :=
  ∀ m path, m ∈ ms → m_target m = Some path → can_write P path.

(** The whitespace characters [str.strip] removes, each as the bytes of
    its UTF-8 encoding: U+0009 to U+000D, U+001C to U+0020, U+0085,
    U+00A0, U+1680, U+2000 to U+200A, U+2028, U+2029, U+202F, U+205F,
    U+3000. *)
Definition spaces : list string :=
  map of_codes
    [ [9]; [10]; [11]; [12]; [13]; [28]; [29]; [30]; [31]; [32];
      [194; 133]; [194; 160]; [225; 154; 128];
      [226; 128; 128]; [226; 128; 129]; [226; 128; 130]; [226; 128; 131];
      [226; 128; 132]; [226; 128; 133]; [226; 128; 134]; [226; 128; 135];
      [226; 128; 136]; [226; 128; 137]; [226; 128; 138];
      [226; 128; 168]; [226; 128; 169]; [226; 128; 175];
      [226; 129; 159]; [227; 128; 128] ]%nat.

(** A run of whitespace characters. *)
Inductive blank : string -> Prop :=
| blank_nil : blank ""
| blank_cons (sp rest : string) :
    sp ∈ spaces -> blank rest -> blank (sp +:+ rest).

(** [e] is [line] without the whitespace around it: whitespace before,
    whitespace after, and [e] neither starts nor ends with a whitespace
    character. *)
Definition stripped (line e : string) : Prop :=
  (∃ pre post, line = pre +:+ e +:+ post ∧ blank pre ∧ blank post)
  ∧ (∀ sp rest, sp ∈ spaces → e ≠ sp +:+ rest)
  ∧ (∀ sp rest, sp ∈ spaces → e ≠ rest +:+ sp).

(** The character [c] does not occur in [s]. *)
Definition free_of (c : ascii) (s : string) : Prop :=
  ∀ x y, s ≠ x +:+ String c y.

(** [e] is one of the fields of [arg] between separators: it holds no
    separator, and in [arg] it sits between the start or a separator and
    a separator or the end. *)
Definition field (sep : ascii) (arg e : string) : Prop :=
  free_of sep e
  ∧ ∃ a b, arg = a +:+ e +:+ b
           ∧ (a = "" ∨ ∃ a', a = a' +:+ String sep "")
           ∧ (b = "" ∨ ∃ b', b = String sep b').

(** [l] is one of the lines of [text]: it starts at the start of the
    text or after a line feed, and runs up to and including the next
    line feed, or to the end of the text when no line feed follows. *)
Definition line_of (text l : string) : Prop :=
  l ≠ ""
  ∧ ∃ a b, text = a +:+ l +:+ b
           ∧ (a = "" ∨ ∃ a', a = a' +:+ String Str.LF "")
           ∧ ((∃ body, l = body +:+ String Str.LF "" ∧ free_of Str.LF body)
              ∨ (free_of Str.LF l ∧ b = "")).

(** Universal newlines: [t] is [s] with every CR LF and every other CR
    turned into LF. *)
Inductive newlines : string -> string -> Prop :=
| newlines_nil : newlines "" ""
| newlines_crlf (s t : string) :
    newlines s t ->
    newlines (String Str.CR (String Str.LF s)) (String Str.LF t)
| newlines_cr (s t : string) :
    (∀ s', s ≠ String Str.LF s') -> newlines s t ->
    newlines (String Str.CR s) (String Str.LF t)
| newlines_other (c : ascii) (s t : string) :
    c ≠ Str.CR -> newlines s t -> newlines (String c s) (String c t).

(** An entry that a text gives: the text has a line, and the entry is
    that line without the whitespace around it, when that is neither
    empty nor starts with [#].  Each step is given twice, as the script
    computes it and as what it means. *)
Definition entry_of_text (text e : string) : Prop :=
  ∃ line,
    newlines text (Str.universal_newlines text)
    ∧ line ∈ Str.readlines (Str.universal_newlines text)
    ∧ line_of (Str.universal_newlines text) line
    ∧ e = Str.strip line ∧ stripped line e
    ∧ e ≠ "" ∧ ¬ (∃ rest, e = String "#" rest).

(** An entry that comes from a list file named by a [-f] option: the
    file is there, decodes to a text, and the text gives the entry. *)
Definition from_list_file (P : platform) (w : world)
    (opts : list (string * string)) (e : string) : Prop :=
  ∃ path data text,
    ("-f", path) ∈ opts ∧ files w !! path = Some data
    ∧ decode_text P data = inr text ∧ entry_of_text text e.

(** A list file that can be read: it is there and it decodes. *)
Definition readable_text (P : platform) (w : world) (path : string) : Prop :=
  ∃ data text, files w !! path = Some data ∧ decode_text P data = inr text.

(** An entry that comes from a positional argument: one of its
    comma-separated fields. *)
Definition from_arguments (args : list string) (e : string) : Prop :=
  ∃ arg, arg ∈ args ∧ field "," arg e.

(** The options [getopt] can hand back for ['vxf:']. *)
Definition known (oa : string * string) : Prop :=
  oa.1 = "-v" ∨ oa.1 = "-x" ∨ oa.1 = "-f".

(** A request that only reads. *)
Definition is_GET (rq : request) : Prop :=
  match rq with
  | GET _ => True
  | POST _ _ _ => False
  end.

(** [m] adds at most [n] requests to the log, each of them a [GET],
    whatever the world it starts in and however it ends. *)
Definition sends_at_most {A} (n : nat) (m : IO A) : Prop :=
  ∀ w, ∃ l, sent (m w).2 = sent w ++ l ∧ (length l ≤ n)%nat ∧ Forall is_GET l.

(** [m] fails with ordinary exceptions only, the ones [except Exception]
    catches. *)
Definition raises_exceptions {A} (m : IO A) : Prop :=
  ∀ w e w', m w = (inl e, w') → is_Exception e = true.

(** A platform whose libraries fail with ordinary exceptions only. *)
Definition well_behaved (P : platform) : Prop :=
  (∀ hist rq e, server P hist rq = inl e → is_Exception e = true)
  ∧ (∀ body e, json_loads P body = inl e → is_Exception e = true)
  ∧ (∀ body e, zip_entries P body = inl e → is_Exception e = true)
  ∧ (∀ body ms m pwd e, zip_entries P body = inr ms → m ∈ ms →
       (m_read m pwd = Refused e ∨ ∃ partial, m_read m pwd = Broken e partial) →
       is_Exception e = true)
  ∧ (∀ fd e, fd_isfile P fd = inl e → is_Exception e = true)
  ∧ (∀ fd e, fd_read P fd = inl e → is_Exception e = true)
  ∧ (∀ fs path e, open_wb P fs path = Some e → is_Exception e = true).

(** The three modes of the command line. *)
Definition is_mode (action : string) : Prop :=
  action = "check" ∨ action = "download" ∨ action = "upload".

(** * Properties *)

(** ** Credential lookup *)

(** C5.  The key is the explicit argument when that is not empty, else
    the value of the environment variable when it is set, else the
    configured global when that is not empty; with none of the three the
    lookup fails with the missing-credential error and returns no
    string. *)
Theorem getApikey_precedence (P : platform) (apikey : string) :
  (apikey ≠ "" → getApikey P apikey = inr apikey) ∧
  (apikey = "" → ∀ k, environ P !! "JEBIO_APIKEY" = Some k →
     getApikey P apikey = inr k) ∧
  (apikey = "" → environ P !! "JEBIO_APIKEY" = None → APIKEY P ≠ "" →
     getApikey P apikey = inr (APIKEY P)) ∧
  (apikey = "" → environ P !! "JEBIO_APIKEY" = None → APIKEY P = "" →
     getApikey P apikey = inl MissingCredential).
Proof.
  unfold getApikey, truthy.
  repeat split.
  - intros Hne. destruct (String.eqb_spec apikey ""); [contradiction | reflexivity].
  - intros -> k Hk. cbn. now rewrite Hk.
  - intros -> Henv Hne. cbn. rewrite Henv.
    destruct (String.eqb_spec (APIKEY P) ""); [contradiction | reflexivity].
  - intros -> Henv Hk. cbn. rewrite Henv, Hk. reflexivity.
Qed.

Lemma getApikey_precedence_witness :
  let r := Response 200 "{}" in
  getApikey (Sample.platform_of "G" (Sample.env_key "E") r r) "X" = inr "X"
  ∧ getApikey (Sample.platform_of "G" (Sample.env_key "E") r r) "" = inr "E"
  ∧ getApikey (Sample.platform_of "G" Sample.no_env r r) "" = inr "G"
  ∧ getApikey (Sample.platform_of "" Sample.no_env r r) "" = inl MissingCredential.
Proof.
  intros r. split; [| split; [| split]].
  - destruct (getApikey_precedence
                (Sample.platform_of "G" (Sample.env_key "E") r r) "X") as (H & _).
    apply H. intros E. discriminate E.
  - destruct (getApikey_precedence
                (Sample.platform_of "G" (Sample.env_key "E") r r) "") as (_ & H & _).
    apply H; reflexivity.
  - destruct (getApikey_precedence
                (Sample.platform_of "G" Sample.no_env r r) "") as (_ & _ & H & _).
    apply H; [reflexivity | reflexivity | intros E; discriminate E].
  - destruct (getApikey_precedence
                (Sample.platform_of "" Sample.no_env r r) "") as (_ & _ & _ & H).
    apply H; reflexivity.
Defined.

(** An environment variable that is set to the empty string is still the
    one that answers: the lookup then returns the empty string. *)
Lemma getApikey_empty_environment (P : platform) :
  environ P !! "JEBIO_APIKEY" = Some "" → getApikey P "" = inr "".
Proof. intros H. unfold getApikey. cbn. now rewrite H. Qed.

(** ** Check *)

(** What one call of [check] does, in full: one request, and the answer
    decoded whatever its status. *)
Lemma check_unfold (P : platform) (h apikey : string) (verbose : bool) (w : world) :
  check P h apikey verbose w =
  match getApikey P apikey with
  | inl e => (inl e, w)
  | inr key =>
      (match server P (sent w) (GET (check_url key h)) with
       | inl e => inl e
       | inr r => json_loads P (content r)
       end,
       World (files w) (sent w ++ [GET (check_url key h)]))
  end.
Proof.
  unfold check, bind, lift, requests_get, json.
  destruct (getApikey P apikey) as [e | key]; [reflexivity |].
  destruct (server P (sent w) (GET (check_url key h))) as [e | r]; reflexivity.
Qed.

(** A value returned by [check] leaves the files alone and has sent
    exactly the one [file/check] request. *)
Lemma check_returns_world (P : platform) (h apikey : string) (verbose : bool)
    (w w1 : world) (r : value) :
  check P h apikey verbose w = (inr r, w1) →
  ∃ key, getApikey P apikey = inr key
         ∧ w1 = World (files w) (sent w ++ [GET (check_url key h)]).
Proof.
  rewrite check_unfold.
  destruct (getApikey P apikey) as [e | key]; [discriminate |].
  intros [= _ <-]. now exists key.
Qed.


(** A 404 answer with the body [{"code": 1}] is handed back as a value. *)
Lemma check_bad_status_is_returned : ¬ check_raises_on_bad_status.
Proof.
  intros H.
  pose (r := Response 404 (Sample.code_body "1")).
  destruct (H (Sample.platform_of "" Sample.no_env r r) "abc" "K" false
              Sample.empty_world "K" r) as (e & w' & He);
    [reflexivity | reflexivity | cbn; lia |].
  vm_compute in He. discriminate.
Qed.

(** C6, amended.  [check] sends one [GET] to [file/check] with the
    resolved key and the hash, never a second one, and does not look at
    the status of the answer: a failure of the connection and a body that
    is not JSON are raised to the caller, and every body that decodes is
    returned as decoded, also under a status outside 2xx. *)
Theorem check_one_request (P : platform) (h apikey : string) (verbose : bool)
    (w : world) (key : string) :
  getApikey P apikey = inr key →
  let rq := GET (check_url key h) in
  let w' := World (files w) (sent w ++ [rq]) in
  (∀ e, server P (sent w) rq = inl e →
        check P h apikey verbose w = (inl e, w'))
  ∧ (∀ r e, server P (sent w) rq = inr r → json_loads P (content r) = inl e →
        check P h apikey verbose w = (inl e, w'))
  ∧ (∀ r v, server P (sent w) rq = inr r → json_loads P (content r) = inr v →
        check P h apikey verbose w = (inr v, w')).
Proof.
  intros Hkey rq w'. rewrite check_unfold, Hkey. fold rq. fold w'.
  repeat split.
  - intros e ->. reflexivity.
  - intros r e -> ->. reflexivity.
  - intros r v -> ->. reflexivity.
Qed.

Lemma check_one_request_witness :
  let r := Response 404 (Sample.code_body "1") in
  let P := Sample.platform_of "" Sample.no_env r r in
  check P "abc" "K" false Sample.empty_world
  = (inr (VDict [("code", VInt 1)]),
     World ∅ [GET (check_url "K" "abc")]).
Proof.
  intros r P.
  refine (proj2 (proj2 (check_one_request P "abc" "K" false Sample.empty_world "K" _))
            r (VDict [("code", VInt 1)]) _ _); reflexivity.
Defined.

(** ** Download *)

(** C8.  An empty hash makes [download] raise at its first statement:
    whatever the platform, key or no key, the world is left as it was and
    nothing has been sent. *)
Theorem download_empty_hash (P : platform) (apikey : string)
    (extract verbose : bool) (w : world) :
  download P "" apikey extract verbose w
  = (inl (RaiseStr "A hash must be provided"), w).
Proof. reflexivity. Qed.

(** Running a sequence whose first statement is known. *)
Lemma bind_returns {A B} (m : IO A) (k : A → IO B) (w w' : world) (a : A) :
  m w = (inr a, w') → bind m k w = k a w'.
Proof. intros H. unfold bind. now rewrite H. Qed.

Lemma bind_raises {A B} (m : IO A) (k : A → IO B) (w w' : world) (e : exn) :
  m w = (inl e, w') → bind m k w = (inl e, w').
Proof. intros H. unfold bind. now rewrite H. Qed.

Lemma truthy_str (s : string) : truthy (VStr s) = true ↔ s ≠ "".
Proof.
  unfold truthy. destruct (String.eqb_spec s ""); cbn; split; intros; congruence.
Qed.

Lemma truthy_str_ne (s : string) : s ≠ "" → negb (truthy (VStr s)) = false.
Proof. intros H. apply truthy_str in H. now rewrite H. Qed.

(** [download] starts with [check]; an error of [check] is the error of
    [download]. *)
Lemma download_check_raises (P : platform) (h apikey : string)
    (extract verbose : bool) (w w1 : world) (e : exn) :
  h ≠ "" →
  check P h apikey verbose w = (inl e, w1) →
  download P h apikey extract verbose w = (inl e, w1).
Proof.
  intros Hh Hc. unfold download. rewrite (truthy_str_ne h Hh).
  now apply bind_raises.
Qed.

(** C2.  When the value [check] returned is falsy, or is an object whose
    [code] differs from 0, [download] returns [None]: it does not raise,
    and it leaves the world as [check] left it, with the one
    [file/check] request sent, no [file/download] request and the files
    untouched. *)
Theorem download_not_found (P : platform) (h apikey : string)
    (extract verbose : bool) (w w1 : world) (r : value) :
  h ≠ "" →
  check P h apikey verbose w = (inr r, w1) →
  (truthy r = false
   ∨ ∃ kv code, r = VDict kv ∧ assoc "code" kv = Some code ∧ ne_zero code = true) →
  download P h apikey extract verbose w = (inr VNone, w1)
  ∧ files w1 = files w
  ∧ ∃ key, getApikey P apikey = inr key
           ∧ sent w1 = sent w ++ [GET (check_url key h)].
Proof.
  intros Hh Hc Hr. split.
  - unfold download. rewrite (truthy_str_ne h Hh).
    rewrite (bind_returns _ _ _ _ _ Hc).
    destruct Hr as [Hr | (kv & code & -> & Hcode & Hne)].
    + rewrite Hr. reflexivity.
    + destruct (truthy (VDict kv)); [| reflexivity].
      unfold bind at 1. cbn. rewrite Hcode. cbn. unfold bind at 1. cbn.
      rewrite Hne. reflexivity.
  - destruct (check_returns_world _ _ _ _ _ _ _ Hc) as (key & Hk & ->).
    split; [reflexivity |]. now exists key.
Qed.

Lemma download_not_found_witness :
  let r := Response 200 (Sample.code_body "1") in
  let P := Sample.platform_of "" (Sample.env_key "K") r r in
  download P "abc" "" true false Sample.empty_world
  = (inr VNone, World ∅ [GET (check_url "K" "abc")]).
Proof.
  intros r P.
  refine (proj1 (download_not_found P "abc" "" true false Sample.empty_world
                   (World ∅ [GET (check_url "K" "abc")])
                   (VDict [("code", VInt 1)]) _ _ _)).
  - intros E. discriminate E.
  - reflexivity.
  - right. exists [("code", VInt 1)], (VInt 1). repeat split.
Defined.

(** C9.  When [check] returns an object that has entries but no [code]
    among them, the lookup [r['code']] fails and [download] raises the
    key error; it does not return [None]. *)
Theorem download_code_missing (P : platform) (h apikey : string)
    (extract verbose : bool) (w w1 : world) (kv : list (string * value)) :
  h ≠ "" →
  check P h apikey verbose w = (inr (VDict kv), w1) →
  kv ≠ [] →
  assoc "code" kv = None →
  download P h apikey extract verbose w = (inl (KeyError "code"), w1).
Proof.
  intros Hh Hc Hkv Hcode. unfold download. rewrite (truthy_str_ne h Hh).
  rewrite (bind_returns _ _ _ _ _ Hc).
  destruct kv as [| kv0 kv']; [contradiction |].
  unfold bind at 1. cbn [truthy negb]. unfold bind at 1.
  unfold getitem. rewrite Hcode. reflexivity.
Qed.

Lemma download_code_missing_witness :
  let r := Response 200 ("{" +:+ Sample.dq +:+ "sha256hash" +:+ Sample.dq +:+ ": null}") in
  let P := Sample.platform_of "" (Sample.env_key "K") r r in
  download P "abc" "" false false Sample.empty_world
  = (inl (KeyError "code"), World ∅ [GET (check_url "K" "abc")]).
Proof.
  intros r P.
  refine (download_code_missing P "abc" "" false false Sample.empty_world
            (World ∅ [GET (check_url "K" "abc")]) [("sha256hash", VNone)] _ _ _ _).
  - intros E. discriminate E.
  - reflexivity.
  - intros E. discriminate E.
  - reflexivity.
Defined.


(** [download] up to the local test, for a found entry whose canonical
    hash is a string. *)
Lemma download_found_str (P : platform) (h apikey : string)
    (extract verbose : bool) (w w1 : world) (kv : list (string * value))
    (code : value) (h0 : string) :
  h ≠ "" →
  check P h apikey verbose w = (inr (VDict kv), w1) →
  assoc "code" kv = Some code → ne_zero code = false →
  assoc "sha256hash" kv = Some (VStr h0) →
  download P h apikey extract verbose w =
  if already_present P w1 h0 then (inr (VStr h0), w1)
  else
    (key <- lift (getApikey P apikey) ;;
     r <- requests_get P (download_url key h0) ;;
     if negb (ok r) || negb (ok r) || negb (truthy (VStr (content r)))
     then ret VNone else
     write_binary P (h0 +:+ ".zip") (content r) ;;;
     if extract then
       zipfile <- ZipFile P (h0 +:+ ".zip") ;;
       extractall P zipfile "infected" ;;;
       outpath2 <- first (namelist zipfile) ;;
       unlink (h0 +:+ ".zip") ;;;
       ret (VStr outpath2)
     else ret (VStr (h0 +:+ ".zip"))) w1.
Proof.
  intros Hh Hc Hcode Hzero Hsha. unfold download.
  rewrite (truthy_str_ne h Hh), (bind_returns _ _ _ _ _ Hc).
  assert (Hkv : truthy (VDict kv) = true) by (destruct kv; [discriminate | reflexivity]).
  rewrite Hkv. unfold already_present.
  unfold get, getitem, isfile, read_binary, lower, add_str, bind, ret.
  rewrite Hcode, Hzero, Hsha. cbn [negb default id format_s].
  destruct (truthy (VStr h0)) eqn:Ht; cbn [andb]; [| reflexivity].
  destruct (files w1 !! h0) as [data |] eqn:Hf.
  - rewrite bool_decide_true by eauto. cbv beta iota. rewrite Hf.
    destruct (String.eqb _ _); reflexivity.
  - rewrite bool_decide_false by (intros [? ?]; discriminate).
    reflexivity.
Qed.

(** C3.  When the entry is found, its canonical hash [h0] names a local
    file and the digest of that file is [h0] up to letter case,
    [download] returns [h0] and stops there: the world is the one
    [check] left, with the [file/check] request as the only one sent and
    every file as it was. *)
Theorem download_already_present (P : platform) (h apikey : string)
    (extract verbose : bool) (w w1 : world) (kv : list (string * value))
    (code : value) (h0 : string) (data : bytes) :
  h ≠ "" →
  check P h apikey verbose w = (inr (VDict kv), w1) →
  assoc "code" kv = Some code → ne_zero code = false →
  assoc "sha256hash" kv = Some (VStr h0) → h0 ≠ "" →
  files w !! h0 = Some data →
  Str.lower (sha256_hexdigest P data) = Str.lower h0 →
  download P h apikey extract verbose w = (inr (VStr h0), w1)
  ∧ files w1 = files w
  ∧ ∃ key, getApikey P apikey = inr key
           ∧ sent w1 = sent w ++ [GET (check_url key h)].
Proof.
  intros Hh Hc Hcode Hzero Hsha Hh0 Hfile Hdigest.
  destruct (check_returns_world _ _ _ _ _ _ _ Hc) as (key & Hk & Hw1).
  split; [| subst w1; split; [reflexivity | now exists key]].
  rewrite (download_found_str P h apikey extract verbose w w1 kv code h0)
    by assumption.
  unfold already_present. apply truthy_str in Hh0. rewrite Hh0.
  subst w1. cbn [files andb]. rewrite Hfile, Hdigest, String.eqb_refl.
  reflexivity.
Qed.

Lemma download_already_present_witness :
  let r := Response 200 (Sample.found_body "c0ffee") in
  let P := Sample.platform_of "" (Sample.env_key "K") r r in
  let w := World {[ "c0ffee" := "MZ" ]} [] in
  download P "abc" "" true false w
  = (inr (VStr "c0ffee"),
     World {[ "c0ffee" := "MZ" ]} [GET (check_url "K" "abc")]).
Proof.
  intros r P w.
  refine (proj1 (download_already_present P "abc" "" true false w
                   (World {[ "c0ffee" := "MZ" ]} [GET (check_url "K" "abc")])
                   [("code", VInt 0); ("sha256hash", VStr "c0ffee")]
                   (VInt 0) "c0ffee" "MZ" _ _ _ _ _ _ _ _)).
  - intros E. discriminate E.
  - reflexivity.
  - reflexivity.
  - reflexivity.
  - reflexivity.
  - intros E. discriminate E.
  - reflexivity.
  - reflexivity.
Defined.

(** *** Extraction *)


Lemma write_binary_ok (P : platform) (path : string) (data : bytes) (w : world) :
  can_write P path →
  write_binary P path data w = (inr tt, World (<[path := data]> (files w)) (sent w)).
Proof. intros Hp. unfold write_binary. now rewrite Hp. Qed.

Lemma extractall_returns (P : platform) (ms : list member) (pwd : bytes)
    (w : world) :
  Forall (readable pwd) ms → can_unpack P ms →
  extractall P ms pwd w = (inr tt, World (unpack ms pwd (files w)) (sent w)).
Proof.
  intros Hall. revert w.
  induction Hall as [| m ms' Hm _ IH]; intros w Hcan.
  - destruct w. reflexivity.
  - assert (Hcan' : can_unpack P ms').
    { intros m' path Hin. apply Hcan, elem_of_cons. now right. }
    cbn [extractall unpack].
    destruct (m_target m) as [path |] eqn:Ht; [| now apply IH].
    destruct Hm as [Hdir | [data Hdata]]; [congruence |]. rewrite Hdata.
    unfold bind. rewrite write_binary_ok.
    + now rewrite IH.
    + apply (Hcan m path); [apply elem_of_cons; now left | exact Ht].
Qed.

Lemma unpack_other (ms : list member) (pwd : bytes) (fs : gmap string bytes)
    (k : string) :
  Forall (λ m, m_target m ≠ Some k) ms → unpack ms pwd fs !! k = fs !! k.
Proof.
  intros Hall. revert fs.
  induction Hall as [| m ms' Hm _ IH]; intros fs; [reflexivity |].
  cbn [unpack]. rewrite IH.
  destruct (m_target m) as [path |]; [| reflexivity].
  destruct (m_read m pwd); try reflexivity.
  rewrite lookup_insert_ne; [reflexivity | congruence].
Qed.

Lemma unpack_keeps (ms : list member) (pwd : bytes) (fs : gmap string bytes)
    (k : string) :
  is_Some (fs !! k) → is_Some (unpack ms pwd fs !! k).
Proof.
  revert fs. induction ms as [| m ms' IH]; intros fs Hk; [exact Hk |].
  cbn [unpack]. apply IH.
  destruct (m_target m) as [path |]; [| exact Hk].
  destruct (m_read m pwd); try exact Hk.
  destruct (decide (path = k)) as [<- | Hne].
  - rewrite lookup_insert_eq. eauto.
  - now rewrite lookup_insert_ne.
Qed.

(** The target of every file entry holds, after unpacking, what some
    entry with that target reads as. *)
Lemma unpack_lookup (ms : list member) (pwd : bytes) (fs : gmap string bytes)
    (m : member) (path : string) :
  Forall (readable pwd) ms → m ∈ ms → m_target m = Some path →
  ∃ m' data, m' ∈ ms ∧ m_target m' = Some path ∧ m_read m' pwd = Data data
             ∧ unpack ms pwd fs !! path = Some data.
Proof.
  intros Hall. revert m fs.
  induction Hall as [| m1 ms' Hm1 Hall IH]; intros m fs Hin Ht.
  - inversion Hin.
  - cbn [unpack].
    destruct (decide (Exists (λ m', m_target m' = Some path) ms')) as [Hex | Hno].
    + apply Exists_exists in Hex as (m2 & Hin2 & Ht2).
      destruct (IH m2 (match m_target m1, m_read m1 pwd with
                       | Some p, Data d => <[p := d]> fs
                       | _, _ => fs
                       end) Hin2 Ht2) as (m' & data & Hin' & Ht' & Hr & Hl).
      exists m', data.
      split; [apply elem_of_cons; now right |].
      split; [assumption |]. split; assumption.
    + apply not_Exists_Forall in Hno; [| intros ?; apply _].
      assert (Hm : m = m1).
      { apply elem_of_cons in Hin as [-> | Hin]; [reflexivity |].
        exfalso. rewrite Forall_forall in Hno. now apply (Hno m Hin). }
      subst m1. rewrite Ht.
      destruct Hm1 as [Hdir | [data1 Hdata1]]; [congruence |].
      rewrite Hdata1. exists m, data1.
      split; [apply elem_of_cons; now left |].
      split; [assumption |]. split; [assumption |].
      rewrite unpack_other by exact Hno. apply lookup_insert_eq.
Qed.

Section Extract.

Variables (P : platform) (h apikey : string) (verbose : bool) (w w1 : world).
Variables (kv : list (string * value)) (code : value) (h0 key : string).
Variables (r : response) (m0 : member) (ms : list member).

(** The entry is found and its canonical hash is the string [h0]. *)
Hypothesis Hh : h ≠ "".
Hypothesis Hcheck : check P h apikey verbose w = (inr (VDict kv), w1).
Hypothesis Hcode : assoc "code" kv = Some code.
Hypothesis Hzero : ne_zero code = false.
Hypothesis Hsha : assoc "sha256hash" kv = Some (VStr h0).
(** No verified local copy. *)
Hypothesis Hlocal : already_present P w1 h0 = false.
(** The transfer succeeds with a body that is not empty. *)
Hypothesis Hkey : getApikey P apikey = inr key.
Hypothesis Hserved : server P (sent w1) (GET (download_url key h0)) = inr r.
Hypothesis Hok : ok r = true.
Hypothesis Hbody : content r ≠ "".
(** The archive can be saved. *)
Hypothesis Hwrite : can_write P (h0 +:+ ".zip").
(** The body is an archive whose entries all open with [infected] and
    can be written where the library puts them. *)
Hypothesis Hzip : zip_entries P (content r) = inr (m0 :: ms).
Hypothesis Hread : Forall (readable "infected") (m0 :: ms).
Hypothesis Hunpack : can_unpack P (m0 :: ms).

(** The run of an extracting download, in full. *)
Lemma download_extract_run :
  download P h apikey true verbose w
  = (inr (VStr (m_name m0)),
     World (delete (h0 +:+ ".zip")
              (unpack (m0 :: ms) "infected"
                 (<[h0 +:+ ".zip" := content r]> (files w1))))
           (sent w1 ++ [GET (download_url key h0)])).
Proof using All.
  rewrite (download_found_str P h apikey true verbose w w1 kv code h0)
    by assumption.
  rewrite Hlocal.
  unfold bind at 1. unfold lift at 1. rewrite Hkey.
  unfold bind at 1. unfold requests_get at 1. rewrite Hserved, Hok.
  rewrite (truthy_str_ne _ Hbody). cbn [negb orb].
  unfold bind at 1. rewrite write_binary_ok by exact Hwrite. cbn [files sent].
  unfold bind at 1. unfold ZipFile at 1. unfold bind at 1.
  cbn [read_binary files]. rewrite lookup_insert_eq.
  unfold lift at 1. rewrite Hzip.
  erewrite bind_returns by (apply extractall_returns; assumption).
  unfold bind at 1. cbn [namelist map first ret].
  unfold bind at 1. unfold unlink at 1. cbn [files sent].
  destruct (unpack_keeps (m0 :: ms) "infected" (<[h0 +:+ ".zip" := content r]> (files w1))
              (h0 +:+ ".zip")) as [d Hd].
  { rewrite lookup_insert_eq. eauto. }
  rewrite Hd. reflexivity.
Qed.


(** C10.  The same download writes every file entry of the archive, not
    the first one alone: after it, the path the zip library gives each
    entry holds what an entry with that target reads as under
    [infected] (unless the path is the archive's own), while the value
    returned is still the first listed name. *)
Theorem download_extract_all_entries :
  ∃ w2,
    download P h apikey true verbose w = (inr (VStr (m_name m0)), w2)
    ∧ ∀ m path, m ∈ m0 :: ms → m_target m = Some path → path ≠ h0 +:+ ".zip" →
        ∃ m' data, m' ∈ m0 :: ms ∧ m_target m' = Some path
                   ∧ m_read m' "infected" = Data data
                   ∧ files w2 !! path = Some data.
Proof using All.
  eexists. split; [apply download_extract_run |].
  intros m path Hin Ht Hne. cbn [files]. rewrite lookup_delete_ne by congruence.
  now apply (unpack_lookup _ _ _ m).
Qed.

End Extract.



Lemma download_extract_all_entries_witness :
  let P := Depot.platform_of "" (Sample.env_key "K") Depot.known_c0ffee
             Depot.archive Depot.unknown in
  ∃ w2,
    download P "abc" "" true false Sample.empty_world
    = (inr (VStr (m_name Sample.first_entry)), w2)
    ∧ ∀ m path, m ∈ Sample.two_entries → m_target m = Some path →
        path ≠ "c0ffee" +:+ ".zip" →
        ∃ m' data, m' ∈ Sample.two_entries ∧ m_target m' = Some path
                   ∧ m_read m' "infected" = Data data
                   ∧ files w2 !! path = Some data.
Proof.
  intros P.
  refine (download_extract_all_entries P "abc" "" false Sample.empty_world
            (World ∅ [GET (check_url "K" "abc")])
            [("code", VInt 0); ("sha256hash", VStr "c0ffee")] (VInt 0)
            "c0ffee" "K" Depot.archive
            Sample.first_entry [Sample.second_entry]
            _ eq_refl eq_refl eq_refl eq_refl eq_refl eq_refl eq_refl eq_refl
            _ _ eq_refl _ _).
  - intros E. discriminate E.
  - intros E. discriminate E.
  - intros fs. reflexivity.
  - repeat (constructor; [right; eexists; reflexivity |]). constructor.
  - intros m path _ _ fs. reflexivity.
Defined.

(** Both files of the sample archive are there after the download, and
    the archive is not. *)
Example download_extract_sample :
  let P := Depot.platform_of "" (Sample.env_key "K") Depot.known_c0ffee
             Depot.archive Depot.unknown in
  let end_ := download P "abc" "" true false Sample.empty_world in
  fst end_ = inr (VStr "sample.bin")
  ∧ files (snd end_) !! "sample.bin" = Some "MZ"
  ∧ files (snd end_) !! "notes.txt" = Some "hello"
  ∧ files (snd end_) !! "c0ffee.zip" = None.
Proof. vm_compute. repeat split. Qed.

(** Without [extract] the archive stays and its name is returned. *)
Lemma download_saves_archive (P : platform) (h apikey : string) (verbose : bool)
    (w w1 : world) (kv : list (string * value)) (code : value) (h0 key : string)
    (r : response) :
  h ≠ "" →
  check P h apikey verbose w = (inr (VDict kv), w1) →
  assoc "code" kv = Some code → ne_zero code = false →
  assoc "sha256hash" kv = Some (VStr h0) →
  already_present P w1 h0 = false →
  getApikey P apikey = inr key →
  server P (sent w1) (GET (download_url key h0)) = inr r →
  ok r = true → content r ≠ "" →
  can_write P (h0 +:+ ".zip") →
  download P h apikey false verbose w
  = (inr (VStr (h0 +:+ ".zip")),
     World (<[h0 +:+ ".zip" := content r]> (files w1))
           (sent w1 ++ [GET (download_url key h0)])).
Proof.
  intros Hh Hc Hcode Hzero Hsha Hlocal Hkey Hserved Hok Hbody Hwrite.
  rewrite (download_found_str P h apikey false verbose w w1 kv code h0)
    by assumption.
  rewrite Hlocal.
  unfold bind at 1. unfold lift at 1. rewrite Hkey.
  unfold bind at 1. unfold requests_get at 1. rewrite Hserved, Hok.
  rewrite (truthy_str_ne _ Hbody). cbn [negb orb].
  unfold bind at 1. rewrite write_binary_ok by exact Hwrite. reflexivity.
Qed.

(** A failed or empty answer to the transfer is "not found", and nothing
    is written. *)
Lemma download_transfer_refused (P : platform) (h apikey : string)
    (extract verbose : bool) (w w1 : world) (kv : list (string * value))
    (code : value) (h0 key : string) (r : response) :
  h ≠ "" →
  check P h apikey verbose w = (inr (VDict kv), w1) →
  assoc "code" kv = Some code → ne_zero code = false →
  assoc "sha256hash" kv = Some (VStr h0) →
  already_present P w1 h0 = false →
  getApikey P apikey = inr key →
  server P (sent w1) (GET (download_url key h0)) = inr r →
  ok r = false ∨ content r = "" →
  download P h apikey extract verbose w
  = (inr VNone, World (files w1) (sent w1 ++ [GET (download_url key h0)])).
Proof.
  intros Hh Hc Hcode Hzero Hsha Hlocal Hkey Hserved Hbad.
  rewrite (download_found_str P h apikey extract verbose w w1 kv code h0)
    by assumption.
  rewrite Hlocal.
  unfold bind at 1. unfold lift at 1. rewrite Hkey.
  unfold bind at 1. unfold requests_get at 1. rewrite Hserved.
  destruct Hbad as [-> | ->]; [reflexivity |].
  destruct (ok r); reflexivity.
Qed.

(** *** A found entry without a canonical hash *)

(** When the object [check] returned has [code] 0 and no [sha256hash]
    (or a null one), the transfer is still asked for, but for the text
    [None]: the hash given by the caller appears nowhere in the request.
    A usable answer then stops at [h0 + '.zip'] with a type error, so no
    file is written on any path. *)
Lemma download_hash_absent (P : platform) (h apikey : string)
    (extract verbose : bool) (w w1 : world) (kv : list (string * value))
    (code : value) (key : string) :
  h ≠ "" →
  check P h apikey verbose w = (inr (VDict kv), w1) →
  assoc "code" kv = Some code → ne_zero code = false →
  default VNone (assoc "sha256hash" kv) = VNone →
  getApikey P apikey = inr key →
  download P h apikey extract verbose w
  = (match server P (sent w1) (GET (download_url key "None")) with
     | inl e => inl e
     | inr r => if ok r && truthy (VStr (content r)) then inl TypeError
                else inr VNone
     end,
     World (files w1) (sent w1 ++ [GET (download_url key "None")])).
Proof.
  intros Hh Hc Hcode Hzero Hsha Hkey. unfold download.
  rewrite (truthy_str_ne h Hh), (bind_returns _ _ _ _ _ Hc).
  assert (Hkv : truthy (VDict kv) = true) by (destruct kv; [discriminate | reflexivity]).
  rewrite Hkv.
  unfold get, getitem, add_str, requests_get, lift, bind, ret, raise.
  rewrite Hcode, Hzero, Hsha, Hkey. cbn [negb truthy format_s].
  destruct (server P (sent w1) (GET (download_url key "None"))) as [e | r];
    [reflexivity |].
  destruct (ok r); [| reflexivity].
  cbn [negb orb andb]. destruct (String.eqb (content r) ""); reflexivity.
Qed.

(** C1.  The run that shows the defect: the service knows [abc] and
    answers [{"code": 0}], without a [sha256hash].  [download] asks
    [file/download] for [h=None], not for [h=abc], gets an archive, and
    raises a type error at [h0 + '.zip'] instead of saving it: the
    working directory is still empty. *)
Theorem download_hash_absent_run :
  let checked := Response 200 (Sample.code_body "0") in
  let P := Sample.platform_of "" (Sample.env_key "K") checked (Response 200 "PK") in
  json_loads P (content checked) = inr (VDict [("code", VInt 0)])
  ∧ download P "abc" "" false false Sample.empty_world
    = (inl TypeError,
       World ∅ [GET (check_url "K" "abc"); GET (download_url "K" "None")])
  ∧ download_url "K" "None"
    = "https://www.pnfsoftware.com/io/api/file/download?apikey=K&h=None".
Proof. vm_compute. repeat split. Qed.


(** ** The command line *)


Lemma short_has_arg_known (c : ascii) (b : bool) :
  Getopt.short_has_arg c "vxf:" = inr b →
  ∀ a, known (String "-" (String c ""), a).
Proof.
  intros H a. unfold known. cbn [fst]. cbn in H.
  destruct (Ascii.eqb_spec c "v") as [-> | _]; [now left |].
  destruct (Ascii.eqb_spec c "x") as [-> | _]; [right; now left |].
  destruct (Ascii.eqb_spec c "f") as [-> | _]; [right; now right |].
  cbn in H. destruct (Ascii.eqb c ":"); discriminate H.
Qed.

Lemma do_shorts_known (s : string) (next : option string)
    (opts : list (string * string)) (took : bool) :
  Getopt.do_shorts s "vxf:" next = inr (opts, took) → Forall known opts.
Proof.
  revert opts took. induction s as [| c s IH]; intros opts took H.
  - injection H as <- <-. constructor.
  - cbn [Getopt.do_shorts] in H.
    destruct (Getopt.short_has_arg c "vxf:") as [e | b] eqn:Hc; [discriminate |].
    pose proof (short_has_arg_known c b Hc) as Hk.
    destruct b.
    + destruct (String.eqb s "").
      * destruct next as [optarg |]; [| discriminate].
        injection H as <- <-. constructor; [apply Hk | constructor].
      * injection H as <- <-. constructor; [apply Hk | constructor].
    + destruct (Getopt.do_shorts s "vxf:" next) as [e | [opts' took']];
        [discriminate |].
      injection H as <- <-. constructor; [apply Hk | now apply (IH opts' took')].
Qed.

Lemma getopt_known (args : list string) (opts : list (string * string))
    (rest : list string) :
  Getopt.getopt args "vxf:" = inr (opts, rest) → Forall known opts.
Proof.
  remember (length args) as n eqn:Hn.
  assert (Hle : (length args ≤ n)%nat) by lia. clear Hn.
  revert args opts rest Hle.
  induction n as [| n IH]; intros args opts rest Hle H.
  - destruct args; [| cbn in Hle; lia]. injection H as <- <-. constructor.
  - destruct args as [| a args]; [injection H as <- <-; constructor |].
    cbn [Getopt.getopt] in H. cbn [length] in Hle.
    destruct (Str.startswith "-" a && negb (String.eqb a "-")).
    2: { injection H as <- <-. constructor. }
    destruct (String.eqb a "--"); [injection H as <- <-; constructor |].
    destruct (Str.startswith "--" a); [discriminate |].
    destruct (Getopt.do_shorts (Getopt.tail a) "vxf:" (head args))
      as [e | [opts1 took]] eqn:Hs; [discriminate |].
    apply do_shorts_known in Hs.
    destruct took.
    + destruct args as [| b args'].
      * injection H as <- <-. rewrite app_nil_r. exact Hs.
      * destruct (Getopt.getopt args' "vxf:") as [e | [opts2 rest2]] eqn:Hg;
          [discriminate |].
        injection H as <- <-. apply Forall_app. split; [exact Hs |].
        apply (IH args' opts2 rest2); [cbn [length] in Hle; lia | exact Hg].
    + destruct (Getopt.getopt args "vxf:") as [e | [opts2 rest2]] eqn:Hg;
        [discriminate |].
      injection H as <- <-. apply Forall_app. split; [exact Hs |].
      apply (IH args opts2 rest2); [lia | exact Hg].
Qed.

(** *** Strings *)

Lemma sapp_nil_l (s : string) : "" +:+ s = s.
Proof. reflexivity. Qed.

Lemma sapp_cons (c : ascii) (s t : string) :
  String c s +:+ t = String c (s +:+ t).
Proof. reflexivity. Qed.

Lemma sapp_nil_r (s : string) : s +:+ "" = s.
Proof. induction s as [| c s IH]; [reflexivity |]. now rewrite sapp_cons, IH. Qed.

Lemma sapp_assoc (s t u : string) : (s +:+ t) +:+ u = s +:+ t +:+ u.
Proof.
  induction s as [| c s IH]; [reflexivity |]. now rewrite !sapp_cons, IH.
Qed.

Lemma slength_app (s t : string) :
  String.length (s +:+ t) = (String.length s + String.length t)%nat.
Proof.
  induction s as [| c s IH]; [reflexivity |]. rewrite sapp_cons. cbn. now rewrite IH.
Qed.

Lemma sapp_eq_nil (s t : string) : s +:+ t = "" → s = "" ∧ t = "".
Proof. destruct s; [intros H; split; [reflexivity | exact H] | discriminate]. Qed.

(** Every whitespace character is one to three bytes, and [space_len]
    finds it at the head of a string. *)
Lemma space_len_space (sp rest : string) :
  sp ∈ spaces →
  sp ≠ "" ∧ Str.space_len (sp +:+ rest) = String.length sp
  ∧ (String.length sp = 1 ∨ String.length sp = 2 ∨ String.length sp = 3)%nat.
Proof.
  intros Hin. apply list_elem_of_In in Hin. cbn in Hin.
  repeat (destruct Hin as [<- | Hin];
          [split; [discriminate |]; split; [reflexivity | cbn; lia] |]).
  destruct Hin.
Qed.

Lemma code_eq (a : ascii) (n : nat) :
  (Str.code a =? n)%nat = true → a = ascii_of_nat n.
Proof.
  intros H. apply Nat.eqb_eq in H. unfold Str.code in H.
  rewrite <- H. symmetry. apply ascii_nat_embedding.
Qed.

Lemma isspace_space (a : ascii) : Str.isspace a = true → String a "" ∈ spaces.
Proof.
  intros H. apply list_elem_of_In.
  destruct a as [[] [] [] [] [] [] [] []]; try discriminate H;
    vm_compute; tauto.
Qed.

Lemma isspace3_space (a b c : ascii) :
  Str.isspace3 (Str.code a) (Str.code b) (Str.code c) = true →
  String a (String b (String c "")) ∈ spaces.
Proof.
  intros H. unfold Str.isspace3 in H.
  repeat (apply orb_true_iff in H as [H | H]);
    apply andb_true_iff in H as [Hab Hc];
    apply andb_true_iff in Hab as [Ha Hb];
    apply code_eq in Ha; apply code_eq in Hb; subst a b;
    destruct c as [[] [] [] [] [] [] [] []];
    try (vm_compute in Hc; discriminate Hc);
    apply list_elem_of_In; vm_compute; tauto.
Qed.

(** What [space_len] finds is a whitespace character. *)
Lemma space_len_inv (s : string) (n : nat) :
  Str.space_len s = S n →
  ∃ sp rest, sp ∈ spaces ∧ s = sp +:+ rest ∧ String.length sp = S n.
Proof.
  unfold Str.space_len.
  destruct s as [| a s1]; [discriminate |].
  destruct (Str.isspace a) eqn:Ha.
  { intros [= <-]. exists (String a ""), s1.
    split; [now apply isspace_space |]. split; reflexivity. }
  destruct s1 as [| b s2]; [discriminate |].
  destruct ((Str.code a =? 194) && ((Str.code b =? 133) || (Str.code b =? 160)))%nat
    eqn:Hab.
  { intros [= <-]. exists (String a (String b "")), s2.
    split; [| split; reflexivity].
    apply andb_true_iff in Hab as [H1 H2]. apply code_eq in H1. subst a.
    apply orb_true_iff in H2 as [H2 | H2]; apply code_eq in H2; subst b;
      apply list_elem_of_In; vm_compute; tauto. }
  destruct s2 as [| c s3]; [discriminate |].
  destruct (Str.isspace3 (Str.code a) (Str.code b) (Str.code c)) eqn:Habc;
    [| discriminate].
  intros [= <-]. exists (String a (String b (String c ""))), s3.
  split; [now apply isspace3_space |]. split; reflexivity.
Qed.

Lemma space_len_none (s sp rest : string) :
  Str.space_len s = 0%nat → sp ∈ spaces → s ≠ sp +:+ rest.
Proof.
  intros H0 Hin ->. destruct (space_len_space sp rest Hin) as (Hne & Hlen & _).
  rewrite H0 in Hlen. destruct sp; [now apply Hne | discriminate].
Qed.

Lemma lstrip_space (sp rest : string) :
  sp ∈ spaces → Str.lstrip (sp +:+ rest) = Str.lstrip rest.
Proof.
  intros Hin. apply list_elem_of_In in Hin. cbn in Hin.
  repeat (destruct Hin as [<- | Hin]; [reflexivity |]).
  destruct Hin.
Qed.

Lemma lstrip_blank (s : string) : blank s → Str.lstrip s = "".
Proof.
  induction 1 as [| sp rest Hsp _ IH]; [reflexivity |].
  now rewrite lstrip_space.
Qed.

Lemma lstrip_keep (s : string) : Str.space_len s = 0%nat → Str.lstrip s = s.
Proof. intros H. destruct s as [| a s1]; [reflexivity |]. cbn [Str.lstrip]. now rewrite H. Qed.

(** [lstrip] takes a run of whitespace off the front and stops where no
    whitespace character starts. *)
Lemma lstrip_spec (s : string) :
  ∃ pre, s = pre +:+ Str.lstrip s ∧ blank pre ∧ Str.space_len (Str.lstrip s) = 0%nat.
Proof.
  remember (String.length s) as n eqn:Hn.
  assert (Hle : (String.length s ≤ n)%nat) by lia. clear Hn.
  revert s Hle. induction n as [| n IH]; intros s Hle.
  - destruct s; [| cbn in Hle; lia]. exists "". repeat split. constructor.
  - destruct (Str.space_len s) as [| k] eqn:Hlen.
    + exists "". rewrite lstrip_keep by exact Hlen.
      split; [reflexivity |]. split; [constructor | exact Hlen].
    + destruct (space_len_inv s k Hlen) as (sp & rest & Hin & -> & Hsp).
      destruct (IH rest) as (pre & Hrest & Hpre & Hstop).
      { rewrite slength_app in Hle. lia. }
      exists (sp +:+ pre). rewrite lstrip_space by exact Hin.
      split; [now rewrite sapp_assoc, <- Hrest |].
      split; [now constructor | exact Hstop].
Qed.

Lemma isblank_blank (s : string) : Str.isblank s = true ↔ blank s.
Proof.
  unfold Str.isblank. split.
  - intros H. apply String.eqb_eq in H.
    destruct (lstrip_spec s) as (pre & Hs & Hpre & _).
    rewrite H, sapp_nil_r in Hs. now subst s.
  - intros H. rewrite (lstrip_blank s H). reflexivity.
Qed.

(** [rstrip] takes a run of whitespace off the end and stops where no
    whitespace character ends. *)
Lemma rstrip_spec (s : string) :
  (∃ post, s = Str.rstrip s +:+ post ∧ blank post)
  ∧ (∀ sp rest, sp ∈ spaces → Str.rstrip s ≠ rest +:+ sp).
Proof.
  induction s as [| c s IH].
  - split; [exists ""; split; [reflexivity | constructor] |].
    intros sp rest Hin H. symmetry in H. apply sapp_eq_nil in H as [_ ->].
    now destruct (space_len_space "" "" Hin) as (Hne & _).
  - cbn [Str.rstrip]. destruct IH as [(post & Hs & Hpost) Hend].
    destruct (Str.isblank (String c s)) eqn:Hb.
    + split.
      * exists (String c s). split; [reflexivity | now apply isblank_blank].
      * intros sp rest Hin H. symmetry in H. apply sapp_eq_nil in H as [_ ->].
        now destruct (space_len_space "" "" Hin) as (Hne & _).
    + split.
      * exists post. split; [now rewrite sapp_cons, <- Hs | exact Hpost].
      * intros sp rest Hin H. destruct rest as [| c' rest'].
        -- rewrite sapp_nil_l in H.
           assert (Hblank : blank (String c s)).
           { rewrite Hs, <- sapp_cons, H. now constructor. }
           apply isblank_blank in Hblank. congruence.
        -- rewrite sapp_cons in H. injection H as _ H. exact (Hend sp rest' Hin H).
Qed.

(** [strip] gives the line without the whitespace around it. *)
Lemma strip_stripped (line : string) : stripped line (Str.strip line).
Proof.
  unfold Str.strip.
  destruct (lstrip_spec line) as (pre & Hline & Hpre & Hstop).
  destruct (rstrip_spec (Str.lstrip line)) as [(post & Hl & Hpost) Hend].
  split; [| split].
  - exists pre, post. split; [| now split]. now rewrite <- Hl.
  - intros sp rest Hin H.
    apply (space_len_none (Str.lstrip line) sp (rest +:+ post) Hstop Hin).
    now rewrite Hl at 1; rewrite H, sapp_assoc.
  - exact Hend.
Qed.

Lemma free_of_nil (c : ascii) : free_of c "".
Proof. intros [| a x] y H; discriminate H. Qed.

Lemma free_of_cons (c a : ascii) (s : string) :
  a ≠ c → free_of c s → free_of c (String a s).
Proof.
  intros Hne Hs [| a' x] y H.
  - rewrite sapp_nil_l in H. injection H as -> _. now apply Hne.
  - rewrite sapp_cons in H. injection H as _ H. exact (Hs x y H).
Qed.

(** The first field of [split]: up to the first separator or the end. *)
Lemma split_head (sep : ascii) (s : string) :
  ∃ hd tl b, Str.split sep s = hd :: tl ∧ free_of sep hd ∧ s = hd +:+ b
             ∧ (b = "" ∨ ∃ b', b = String sep b').
Proof.
  induction s as [| c s IH].
  - exists "", [], "". repeat split; [apply free_of_nil | now left].
  - cbn [Str.split]. destruct IH as (hd & tl & b & Hs & Hfree & Hb & Hend).
    destruct (Ascii.eqb_spec c sep) as [-> | Hne].
    + exists "", (Str.split sep s), (String sep s).
      repeat split; [apply free_of_nil | right; now exists s].
    + rewrite Hs. exists (String c hd), tl, b.
      repeat split; [now apply free_of_cons | now rewrite sapp_cons, <- Hb | exact Hend].
Qed.

(** The later fields of [split]: each after a separator. *)
Lemma split_tail (sep : ascii) (s hd e : string) (tl : list string) :
  Str.split sep s = hd :: tl → e ∈ tl →
  free_of sep e
  ∧ ∃ a' b, s = (a' +:+ String sep "") +:+ e +:+ b
            ∧ (b = "" ∨ ∃ b', b = String sep b').
Proof.
  revert hd tl. induction s as [| c s IH]; intros hd tl.
  - intros [= <- <-] Hin. inversion Hin.
  - cbn [Str.split]. destruct (Ascii.eqb_spec c sep) as [-> | Hne].
    + intros [= <- <-] Hin.
      destruct (split_head sep s) as (hd' & tl' & b & Hs & Hfree & Hb & Hend).
      rewrite Hs in Hin. apply elem_of_cons in Hin as [-> | Hin].
      * split; [exact Hfree |]. exists "", b. split; [now rewrite Hb at 1 | exact Hend].
      * destruct (IH hd' tl' Hs Hin) as (Hfree' & a' & b' & Hs' & Hend').
        split; [exact Hfree' |]. exists (String sep a'), b'.
        split; [now rewrite Hs' at 1 | exact Hend'].
    + destruct (Str.split sep s) as [| hd' tl'] eqn:Hs.
      * intros [= <- <-] Hin. inversion Hin.
      * intros [= <- <-] Hin.
        destruct (IH hd' tl' eq_refl Hin) as (Hfree' & a' & b' & Hs' & Hend').
        split; [exact Hfree' |]. exists (String c a'), b'.
        split; [now rewrite Hs' at 1 | exact Hend'].
Qed.

Lemma split_free (sep : ascii) (e b' : string) :
  free_of sep e →
  Str.split sep e = [e] ∧ Str.split sep (e +:+ String sep b') = e :: Str.split sep b'.
Proof.
  induction e as [| c e IH]; intros Hfree.
  - split; [reflexivity |]. rewrite sapp_nil_l. cbn [Str.split].
    now rewrite Ascii.eqb_refl.
  - assert (Hne : c ≠ sep).
    { intros ->. exact (Hfree "" e eq_refl). }
    assert (Hfree' : free_of sep e).
    { intros x y H. apply (Hfree (String c x) y). now rewrite sapp_cons, <- H. }
    destruct (IH Hfree') as [H1 H2]. rewrite sapp_cons. cbn [Str.split].
    destruct (Ascii.eqb_spec c sep) as [E | _]; [contradiction |].
    now rewrite H1, H2.
Qed.

Lemma split_after (sep : ascii) (a' t x : string) :
  x ∈ Str.split sep t →
  ∃ hd tl, Str.split sep (a' +:+ String sep t) = hd :: tl ∧ x ∈ tl.
Proof.
  intros Hx. induction a' as [| c a' (hd & tl & Hs & Hin)].
  - rewrite sapp_nil_l. cbn [Str.split]. rewrite Ascii.eqb_refl.
    now exists "", (Str.split sep t).
  - rewrite sapp_cons. cbn [Str.split]. rewrite Hs.
    destruct (Ascii.eqb c sep).
    + exists "", (hd :: tl). split; [reflexivity |]. apply elem_of_cons. now right.
    + now exists (String c hd), tl.
Qed.

(** The members of [split] are the fields. *)
Lemma split_field (sep : ascii) (s e : string) :
  e ∈ Str.split sep s ↔ field sep s e.
Proof.
  split.
  - intros Hin.
    destruct (split_head sep s) as (hd & tl & b & Hs & Hfree & Hb & Hend).
    rewrite Hs in Hin. apply elem_of_cons in Hin as [-> | Hin].
    + split; [exact Hfree |]. exists "", b. split; [exact Hb |]. split; [now left | exact Hend].
    + destruct (split_tail sep s hd e tl Hs Hin) as (Hfree' & a' & b' & Hs' & Hend').
      split; [exact Hfree' |]. exists (a' +:+ String sep ""), b'.
      split; [exact Hs' |]. split; [right; now exists a' | exact Hend'].
  - intros (Hfree & a & b & -> & Ha & Hb).
    assert (Hhere : e ∈ Str.split sep (e +:+ b)).
    { destruct (split_free sep e "" Hfree) as [H1 _].
      destruct Hb as [-> | (b' & ->)].
      - rewrite sapp_nil_r, H1. apply elem_of_cons. now left.
      - destruct (split_free sep e b' Hfree) as [_ H2]. rewrite H2.
        apply elem_of_cons. now left. }
    destruct Ha as [-> | (a' & ->)]; [exact Hhere |].
    destruct (split_after sep a' (e +:+ b) e Hhere) as (hd & tl & Hs & Hin).
    rewrite sapp_assoc. change (String sep "" +:+ e +:+ b) with (String sep (e +:+ b)).
    rewrite Hs. apply elem_of_cons. now right.
Qed.

(** [universal_newlines] is the translation of the newlines. *)
Lemma newlines_universal (s : string) : newlines s (Str.universal_newlines s).
Proof.
  remember (String.length s) as n eqn:Hn.
  assert (Hle : (String.length s ≤ n)%nat) by lia. clear Hn.
  revert s Hle. induction n as [| n IH]; intros s Hle.
  - destruct s; [constructor | cbn in Hle; lia].
  - destruct s as [| c s]; [constructor |]. cbn [String.length] in Hle.
    cbn [Str.universal_newlines].
    destruct (Ascii.eqb_spec c Str.CR) as [-> | Hne].
    + destruct s as [| d s'].
      * apply newlines_cr; [discriminate | constructor].
      * cbn [String.length] in Hle.
        destruct (Ascii.eqb_spec d Str.LF) as [-> | Hd].
        -- apply newlines_crlf. apply IH. lia.
        -- apply newlines_cr; [intros s'' [= E _]; now apply Hd |].
           apply IH. cbn [String.length]. lia.
    + apply newlines_other; [exact Hne | apply IH; lia].
Qed.

Lemma readlines_nil (s : string) : Str.readlines s = [] → s = "".
Proof.
  destruct s as [| c s]; [reflexivity |]. cbn [Str.readlines].
  destruct (Ascii.eqb c Str.LF); [discriminate |].
  destruct (Str.readlines s); discriminate.
Qed.

(** The first line of [readlines] and what the other lines are the lines
    of. *)
Lemma readlines_cons (t l : string) (ls : list string) :
  Str.readlines t = l :: ls →
  ∃ b, t = l +:+ b ∧ ls = Str.readlines b ∧ l ≠ ""
       ∧ ((∃ body, l = body +:+ String Str.LF "" ∧ free_of Str.LF body)
          ∨ (free_of Str.LF l ∧ b = "")).
Proof.
  revert l ls. induction t as [| c t IH]; intros l ls; [discriminate |].
  cbn [Str.readlines]. destruct (Ascii.eqb_spec c Str.LF) as [-> | Hne].
  - intros [= <- <-]. exists t. repeat split; [discriminate |].
    left. exists "". split; [reflexivity | apply free_of_nil].
  - destruct (Str.readlines t) as [| l' ls'] eqn:Ht.
    + intros [= <- <-]. apply readlines_nil in Ht. subst t. exists "".
      repeat split; [discriminate |]. right.
      split; [apply free_of_cons; [exact Hne | apply free_of_nil] | reflexivity].
    + intros [= <- <-].
      destruct (IH l' ls' eq_refl) as (b & Hb & Hls & Hl & Hshape).
      exists b. split; [now rewrite sapp_cons, <- Hb |].
      split; [exact Hls |]. split; [discriminate |].
      destruct Hshape as [(body & -> & Hfree) | (Hfree & ->)].
      * left. exists (String c body). split; [reflexivity | now apply free_of_cons].
      * right. split; [now apply free_of_cons | reflexivity].
Qed.

(** The members of [readlines] are lines of the text. *)
Lemma readlines_line_of (t x : string) : x ∈ Str.readlines t → line_of t x.
Proof.
  remember (String.length t) as n eqn:Hn.
  assert (Hle : (String.length t ≤ n)%nat) by lia. clear Hn.
  revert t Hle. induction n as [| n IH]; intros t Hle Hin.
  - destruct t; [inversion Hin | cbn in Hle; lia].
  - destruct (Str.readlines t) as [| l ls] eqn:Ht; [inversion Hin |].
    destruct (readlines_cons t l ls Ht) as (b & -> & -> & Hl & Hshape).
    apply elem_of_cons in Hin as [-> | Hin].
    + split; [exact Hl |]. exists "", b. split; [reflexivity |].
      split; [now left | exact Hshape].
    + destruct Hshape as [(body & -> & Hfree) | (_ & ->)]; [| inversion Hin].
      destruct (IH b) as (Hx & a0 & b0 & -> & Ha0 & Hshape0); [| exact Hin |].
      { rewrite !slength_app in Hle. cbn [String.length] in Hle. lia. }
      split; [exact Hx |].
      exists ((body +:+ String Str.LF "") +:+ a0), b0.
      split; [now rewrite !sapp_assoc |]. split; [| exact Hshape0].
      right. destruct Ha0 as [-> | (a' & ->)].
      * exists body. now rewrite sapp_nil_r.
      * exists ((body +:+ String Str.LF "") +:+ a'). now rewrite !sapp_assoc.
Qed.

Lemma keep_lines_elem (lines hl : list string) (e : string) :
  e ∈ keep_lines lines hl ↔
  e ∈ hl ∨ ∃ line, line ∈ lines ∧ e = Str.strip line ∧ e ≠ ""
                   ∧ Str.startswith "#" e = false.
Proof.
  revert hl. induction lines as [| l lines IH]; intros hl.
  - cbn [keep_lines]. split; [now left |].
    intros [H | (line & Hin & _)]; [exact H | inversion Hin].
  - cbn [keep_lines].
    destruct (truthy (VStr (Str.strip l)) && negb (Str.startswith "#" (Str.strip l)))
      eqn:Hkeep.
    + apply andb_true_iff in Hkeep as [Ht Hs].
      apply truthy_str in Ht. apply negb_true_iff in Hs.
      rewrite IH, elem_of_app, list_elem_of_singleton. split.
      * intros [[H | ->] | (line & Hin & Hrest)].
        -- now left.
        -- right. exists l. split; [apply elem_of_cons; now left | auto].
        -- right. exists line. split; [apply elem_of_cons; now right | exact Hrest].
      * intros [H | (line & Hin & He & Hrest)]; [left; now left |].
        apply elem_of_cons in Hin as [-> | Hin].
        -- left. now right.
        -- right. exists line. auto.
    + rewrite IH. split.
      * intros [H | (line & Hin & Hrest)]; [now left |].
        right. exists line. split; [apply elem_of_cons; now right | exact Hrest].
      * intros [H | (line & Hin & He & Hne & Hs)]; [now left |].
        apply elem_of_cons in Hin as [-> | Hin].
        -- exfalso. subst e. apply truthy_str in Hne.
           rewrite Hne, Hs in Hkeep. discriminate Hkeep.
        -- right. exists line. auto.
Qed.

Lemma startswith_hash (e : string) :
  Str.startswith "#" e = false ↔ ¬ (∃ rest, e = String "#" rest).
Proof.
  destruct e as [| c e].
  - split; [intros _ (rest & H); discriminate H | reflexivity].
  - change (Str.startswith "#" (String c e)) with (Ascii.eqb "#" c && true).
    rewrite andb_true_r. destruct (Ascii.eqb_spec "#"%char c) as [<- | Hne].
    + split; [discriminate | intros H; destruct H; now exists e].
    + split; [intros _ (rest & [= E _]); now apply Hne | reflexivity].
Qed.

Lemma extend_args_elem (args hl : list string) (e : string) :
  e ∈ extend_args args hl ↔ e ∈ hl ∨ from_arguments args e.
Proof.
  unfold from_arguments. revert hl.
  induction args as [| a args IH]; intros hl.
  - cbn [extend_args]. split; [now left |].
    intros [H | (arg & Hin & _)]; [exact H | inversion Hin].
  - cbn [extend_args]. rewrite IH, elem_of_app, split_field. split.
    + intros [[H | H] | (arg & Hin & He)].
      * now left.
      * right. exists a. split; [apply elem_of_cons; now left | exact H].
      * right. exists arg. split; [apply elem_of_cons; now right | exact He].
    + intros [H | (arg & Hin & He)]; [left; now left |].
      apply elem_of_cons in Hin as [-> | Hin].
      * left. now right.
      * right. exists arg. auto.
Qed.

Lemma keep_lines_text (text : string) (hl : list string) (e : string) :
  e ∈ keep_lines (Str.readlines (Str.universal_newlines text)) hl
  ↔ e ∈ hl ∨ entry_of_text text e.
Proof.
  rewrite keep_lines_elem. unfold entry_of_text. split.
  - intros [H | (line & Hin & -> & Hne & Hhash)]; [now left |].
    right. exists line. split; [apply newlines_universal |].
    split; [exact Hin |]. split; [now apply readlines_line_of |].
    split; [reflexivity |]. split; [apply strip_stripped |].
    split; [exact Hne | now apply startswith_hash].
  - intros [H | (line & _ & Hin & _ & -> & _ & Hne & Hhash)]; [now left |].
    right. exists line. split; [exact Hin |]. split; [reflexivity |].
    split; [exact Hne | now apply startswith_hash].
Qed.

Lemma from_list_file_cons (P : platform) (w : world) (o a : string)
    (opts : list (string * string)) (e : string) :
  from_list_file P w ((o, a) :: opts) e ↔
  (o = "-f" ∧ ∃ data text, files w !! a = Some data
      ∧ decode_text P data = inr text ∧ entry_of_text text e)
  ∨ from_list_file P w opts e.
Proof.
  unfold from_list_file. split.
  - intros (path & data & text & Hin & Hrest).
    apply elem_of_cons in Hin as [[= <- <-] | Hin].
    + left. split; [reflexivity |]. now exists data, text.
    + right. now exists path, data, text.
  - intros [(-> & data & text & Hrest) | (path & data & text & Hin & Hrest)].
    + exists a, data, text. split; [apply elem_of_cons; now left | exact Hrest].
    + exists path, data, text. split; [apply elem_of_cons; now right | exact Hrest].
Qed.

(** The loop over the options returns when every list file can be read,
    changes nothing in the world, and adds to the list exactly the
    entries of the list files. *)
Lemma scan_opts_returns (P : platform) (opts : list (string * string))
    (st : settings) (w : world) :
  Forall known opts →
  (∀ path, ("-f", path) ∈ opts → readable_text P w path) →
  ∃ st', scan_opts P opts st w = (inr st', w)
         ∧ ∀ e, e ∈ hlist st' ↔ e ∈ hlist st ∨ from_list_file P w opts e.
Proof.
  intros Hknown. revert st.
  induction Hknown as [| [o a] opts Hoa _ IH]; intros st Hfiles.
  - exists st. split; [reflexivity |]. intros e. split; [now left |].
    intros [H | (path & _ & _ & Hin & _)]; [exact H | inversion Hin].
  - assert (Hfiles' : ∀ path, ("-f", path) ∈ opts → readable_text P w path).
    { intros path Hin. apply Hfiles, elem_of_cons. now right. }
    destruct Hoa as [Ho | [Ho | Ho]]; cbn [fst] in Ho; subst o.
    + destruct (IH (Settings true (extract st) (hlist st)) Hfiles')
        as (st' & Hrun & Hst').
      exists st'. split; [exact Hrun |]. intros e.
      rewrite Hst', from_list_file_cons. cbn [hlist].
      split; [tauto | intros [H | [[[=] _] | H]]; tauto].
    + destruct (IH (Settings (verbose st) true (hlist st)) Hfiles')
        as (st' & Hrun & Hst').
      exists st'. split; [exact Hrun |]. intros e.
      rewrite Hst', from_list_file_cons. cbn [hlist].
      split; [tauto | intros [H | [[[=] _] | H]]; tauto].
    + destruct (Hfiles a) as (data & text & Hdata & Htext);
        [apply elem_of_cons; now left |].
      destruct (IH (Settings (verbose st) (extract st)
                      (keep_lines (Str.readlines (Str.universal_newlines text))
                         (hlist st))) Hfiles')
        as (st' & Hrun & Hst').
      exists st'. split.
      * cbn [scan_opts]. cbn [String.eqb Ascii.eqb Bool.eqb].
        unfold bind at 1. unfold read_lines, bind at 1. cbn [read_binary].
        rewrite Hdata. unfold bind at 1. unfold lift at 1. rewrite Htext.
        cbn [ret]. exact Hrun.
      * intros e. rewrite Hst', from_list_file_cons. cbn [hlist].
        rewrite keep_lines_text. split.
        -- intros [[H | H] | H]; [now left | | now right; right].
           right. left. split; [reflexivity |]. now exists data, text.
        -- intros [H | [(_ & data' & text' & Hd & Ht & Hrest) | H]];
             [left; now left | | now right].
           left. right. rewrite Hdata in Hd. injection Hd as <-.
           rewrite Htext in Ht. injection Ht as <-. exact Hrest.
Qed.

(** C7.  When the options parse and every [-f] file is there and
    decodes, the command line yields an entry list without repetition
    whose members are exactly: for each line of the text of a [-f]
    file (lines end at a line feed, a carriage return or both), the
    line without the whitespace around it, when that is neither empty
    nor starts with [#]; and the fields between the commas of each
    positional argument.  Nothing is sent and no file is touched while
    the list is built.  (The order of the list is the set's and is not
    stated.) *)
Theorem settings_of_entries (P : platform) (argv : list string) (w : world)
    (opts : list (string * string)) (args : list string) :
  Getopt.getopt (drop 2 argv) "vxf:" = inr (opts, args) →
  (∀ path, ("-f", path) ∈ opts → readable_text P w path) →
  ∃ st, settings_of P argv w = (inr st, w)
        ∧ NoDup (hlist st)
        ∧ ∀ e, e ∈ hlist st ↔ from_list_file P w opts e ∨ from_arguments args e.
Proof.
  intros Hopt Hfiles. unfold settings_of. rewrite Hopt.
  destruct (scan_opts_returns P opts (Settings false false []) w
              (getopt_known _ _ _ Hopt) Hfiles) as (st & Hrun & Hst).
  eexists. split; [rewrite (bind_returns _ _ _ _ _ Hrun); reflexivity |].
  cbn [hlist]. unfold list_set. split; [apply NoDup_elements |].
  intros e. rewrite elem_of_elements, elem_of_list_to_set, extend_args_elem, Hst.
  cbn [hlist]. rewrite elem_of_nil. tauto.
Qed.

(** A list file with a comment, blank lines, entries with blanks and
    Unicode spaces around them, a comment after a blank and all three
    line ends, together with two positional arguments: the entries are
    the three of the file and the fields of the arguments (one of them
    empty, one given twice), and in [check] mode these are the hashes
    the service is asked about.  And the list file of the specification,
    with a comment, blank lines and [abc123], gives [abc123] alone. *)
Lemma settings_of_entries_witness :
  let P := Depot.platform_of "" (Sample.env_key "K") Depot.unknown Depot.archive
             Depot.unknown in
  let w := World {[ "list.txt" := Depot.list_txt ]} [] in
  let argv := ["jebio.py"; "check"; "-f"; "list.txt"; "jkl,mno"; "abc123,,p q"] in
  let hashes := ["ghi789"; "mno"; "abc123"; "jkl"; "def456"; "p q"; ""] in
  (∃ st, settings_of P argv w = (inr st, w)
         ∧ NoDup (hlist st)
         ∧ ∀ e, e ∈ hlist st ↔
                from_list_file P w [("-f", "list.txt")] e
                ∨ from_arguments ["jkl,mno"; "abc123,,p q"] e)
  ∧ settings_of P argv w = (inr (Settings false false hashes), w)
  ∧ main P argv w
    = (inr tt, World (files w) (map (fun h => GET (check_url "K" h)) hashes))
  ∧ settings_of P ["jebio.py"; "check"; "-f"; "list.txt"]
      (World {[ "list.txt" := Sample.list_txt ]} [])
    = (inr (Settings false false ["abc123"]),
       World {[ "list.txt" := Sample.list_txt ]} []).
Proof.
  intros P w argv hashes. split; [| split; [| split]].
  - apply (settings_of_entries P argv w [("-f", "list.txt")]
             ["jkl,mno"; "abc123,,p q"]).
    + reflexivity.
    + intros path Hin. apply list_elem_of_singleton in Hin. injection Hin as ->.
      exists Depot.list_txt, Depot.list_txt. split; reflexivity.
  - vm_compute. reflexivity.
  - vm_compute. reflexivity.
  - vm_compute. reflexivity.
Defined.

(** * Further properties *)

(** ** Upload *)

(** What one call of [upload] does, in full. *)
Lemma upload_unfold (P : platform) (filepath apikey : string) (verbose : bool)
    (w : world) :
  upload P filepath apikey verbose w =
  match getApikey P apikey with
  | inl e => (inl e, w)
  | inr key =>
      match files w !! filepath with
      | None => (inl (FileNotFoundError filepath), w)
      | Some body =>
          (match server P (sent w) (POST (upload_url key) "ufile" body) with
           | inl e => inl e
           | inr r => json_loads P (content r)
           end,
           World (files w) (sent w ++ [POST (upload_url key) "ufile" body]))
      end
  end.
Proof.
  unfold upload, bind, lift, requests_post, json, read_binary.
  destruct (getApikey P apikey) as [e | key]; [reflexivity |].
  destruct (files w !! filepath) as [body |]; [| reflexivity].
  cbn [files sent].
  destruct (server P (sent w) (POST (upload_url key) "ufile" body)); reflexivity.
Qed.

(** X1.  With a key and a readable file, [upload] sends one [POST] to
    [file/upload] that carries the key in the query and the bytes of the
    file in the field [ufile], touches no file, and hands back what the
    answer decodes to (or the decoder's error) without looking at the
    status; it never sends a second request. *)
Theorem upload_one_request (P : platform) (filepath apikey : string)
    (verbose : bool) (w : world) (key : string) (body : bytes) (r : response) :
  getApikey P apikey = inr key →
  files w !! filepath = Some body →
  server P (sent w) (POST (upload_url key) "ufile" body) = inr r →
  upload P filepath apikey verbose w
  = (json_loads P (content r),
     World (files w) (sent w ++ [POST (upload_url key) "ufile" body])).
Proof.
  intros Hkey Hfile Hsrv. now rewrite upload_unfold, Hkey, Hfile, Hsrv.
Qed.

(** X2.  A file that is not there makes [upload] raise the file error
    with nothing sent: the file is opened before the request is made. *)
Theorem upload_missing_file (P : platform) (filepath apikey : string)
    (verbose : bool) (w : world) (key : string) :
  getApikey P apikey = inr key →
  files w !! filepath = None →
  upload P filepath apikey verbose w = (inl (FileNotFoundError filepath), w).
Proof.
  intros Hkey Hfile. now rewrite upload_unfold, Hkey, Hfile.
Qed.

(** ** Without a key *)

(** The lookup has one way to fail. *)
Lemma getApikey_error (P : platform) (apikey : string) (e : exn) :
  getApikey P apikey = inl e →
  e = MissingCredential ∧ apikey = ""
  ∧ environ P !! "JEBIO_APIKEY" = None ∧ APIKEY P = "".
Proof.
  unfold getApikey, truthy.
  destruct (String.eqb_spec apikey "") as [-> | _]; cbn [negb]; [| discriminate].
  destruct (environ P !! "JEBIO_APIKEY"); [discriminate |].
  destruct (String.eqb_spec (APIKEY P) "") as [HA | _]; cbn [negb]; [| discriminate].
  intros [= <-]. auto.
Qed.

(** X3.  When no key can be found, [check], [download] (of a hash that
    is not empty) and [upload] all raise the missing-credential error
    and leave the world as it was: nothing is sent, no file is opened or
    written. *)
Theorem no_key_no_request (P : platform) (h apikey : string)
    (extract verbose : bool) (w : world) :
  getApikey P apikey = inl MissingCredential →
  check P h apikey verbose w = (inl MissingCredential, w)
  ∧ upload P h apikey verbose w = (inl MissingCredential, w)
  ∧ (h ≠ "" → download P h apikey extract verbose w = (inl MissingCredential, w)).
Proof.
  intros Hkey.
  assert (Hc : check P h apikey verbose w = (inl MissingCredential, w))
    by now rewrite check_unfold, Hkey.
  split; [exact Hc |]. split.
  - now rewrite upload_unfold, Hkey.
  - intros Hh. now apply download_check_raises.
Qed.

Lemma upload_one_request_witness :
  let P := Depot.platform_of "" (Sample.env_key "K") Depot.unknown Depot.archive
             (Response 500 (Sample.code_body "0")) in
  let w := World {[ "sample.bin" := "MZ" ]} [] in
  upload P "sample.bin" "" false w
  = (inr (VDict [("code", VInt 0)]),
     World {[ "sample.bin" := "MZ" ]} [POST (upload_url "K") "ufile" "MZ"]).
Proof.
  intros P w.
  exact (upload_one_request P "sample.bin" "" false w "K" "MZ"
           (Response 500 (Sample.code_body "0")) eq_refl eq_refl eq_refl).
Defined.

Lemma upload_missing_file_witness :
  let P := Depot.platform_of "" (Sample.env_key "K") Depot.unknown Depot.archive
             Depot.unknown in
  upload P "nothing.bin" "" false Sample.empty_world
  = (inl (FileNotFoundError "nothing.bin"), Sample.empty_world).
Proof.
  intros P.
  exact (upload_missing_file P "nothing.bin" "" false Sample.empty_world "K"
           eq_refl eq_refl).
Defined.

Lemma no_key_no_request_witness :
  let P := Depot.platform_of "" Sample.no_env Depot.unknown Depot.archive
             Depot.unknown in
  let w := World {[ "abc" := "MZ" ]} [] in
  check P "abc" "" false w = (inl MissingCredential, w)
  ∧ upload P "abc" "" false w = (inl MissingCredential, w)
  ∧ ("abc" ≠ "" → download P "abc" "" true false w = (inl MissingCredential, w)).
Proof.
  intros P w. exact (no_key_no_request P "abc" "" true false w eq_refl).
Defined.

(** X4.  An environment variable that is set wins over the configured
    global even when it is set to nothing: the key is then the empty
    string, and [check] goes out with [apikey=] and nothing after it. *)
Theorem empty_environment_key (P : platform) (h : string) (verbose : bool)
    (w : world) :
  environ P !! "JEBIO_APIKEY" = Some "" →
  getApikey P "" = inr ""
  ∧ sent (check P h "" verbose w).2 = sent w ++ [GET (check_url "" h)].
Proof.
  intros Henv.
  assert (Hkey : getApikey P "" = inr "") by now apply getApikey_empty_environment.
  split; [exact Hkey |]. now rewrite check_unfold, Hkey.
Qed.

Lemma empty_environment_key_witness :
  let P := Depot.platform_of "G" (Sample.env_key "") Depot.unknown Depot.archive
             Depot.unknown in
  getApikey P "" = inr ""
  ∧ sent (check P "abc" "" false Sample.empty_world).2
    = [] ++ [GET (check_url "" "abc")].
Proof.
  intros P. exact (empty_environment_key P "abc" false Sample.empty_world eq_refl).
Defined.

(** ** Download: the other ways out *)

(** X5.  A failure of [check] inside [download] is the failure of
    [download]: when the connection fails or the body is not JSON the
    error is raised to the caller (it is not turned into [None]), the
    [file/check] request is the only one sent and no file changes. *)
Theorem download_check_failure (P : platform) (h apikey : string)
    (extract verbose : bool) (w : world) (key : string) (e : exn) :
  h ≠ "" →
  getApikey P apikey = inr key →
  (server P (sent w) (GET (check_url key h)) = inl e
   ∨ ∃ r, server P (sent w) (GET (check_url key h)) = inr r
          ∧ json_loads P (content r) = inl e) →
  download P h apikey extract verbose w
  = (inl e, World (files w) (sent w ++ [GET (check_url key h)])).
Proof.
  intros Hh Hkey Hfail. apply download_check_raises; [exact Hh |].
  rewrite check_unfold, Hkey.
  destruct Hfail as [-> | (r & -> & ->)]; reflexivity.
Qed.

Lemma download_check_failure_witness :
  let P := Depot.platform_of "" (Sample.env_key "K") (Response 200 "<html>")
             Depot.archive Depot.unknown in
  download P "abc" "" false false Sample.empty_world
  = (inl (LibraryError "JSONDecodeError"),
     World ∅ ([] ++ [GET (check_url "K" "abc")])).
Proof.
  intros P.
  refine (download_check_failure P "abc" "" false false Sample.empty_world "K"
            (LibraryError "JSONDecodeError") _ eq_refl _).
  - intros E. discriminate E.
  - right. exists (Response 200 "<html>"). split; reflexivity.
Defined.

(** X6.  When [check] returns something truthy that is not an object (an
    array, a string, a number), the lookup [r['code']] is a type error
    and [download] raises it; it does not say "not found" and asks for no
    transfer. *)
Theorem download_result_not_object (P : platform) (h apikey : string)
    (extract verbose : bool) (w w1 : world) (r : value) :
  h ≠ "" →
  check P h apikey verbose w = (inr r, w1) →
  truthy r = true →
  (∀ kv, r ≠ VDict kv) →
  download P h apikey extract verbose w = (inl TypeError, w1).
Proof.
  intros Hh Hc Ht Hr. unfold download.
  rewrite (truthy_str_ne h Hh), (bind_returns _ _ _ _ _ Hc), Ht.
  cbn [negb]. unfold bind, getitem.
  destruct r; try reflexivity. now destruct (Hr kv).
Qed.

Lemma download_result_not_object_witness :
  let P := Depot.platform_of "" (Sample.env_key "K") (Response 200 "[1]")
             Depot.archive Depot.unknown in
  download P "abc" "" false false Sample.empty_world
  = (inl TypeError, World ∅ [GET (check_url "K" "abc")]).
Proof.
  intros P.
  refine (download_result_not_object P "abc" "" false false Sample.empty_world
            (World ∅ [GET (check_url "K" "abc")]) (VList [VInt 1]) _ eq_refl eq_refl _).
  - intros E. discriminate E.
  - intros kv E. discriminate E.
Defined.

(** X7.  Without [extract], a found entry with no verified local copy
    and a usable answer is saved as [<h0>.zip], when a file of that name
    can be opened for writing, and that name is returned: the file holds
    the body of the answer, replacing what was there under that name,
    every other file is as before (a local file named [h0] with another
    digest included), and the transfer is the one request after the
    check.  When the file cannot be opened (the canonical hash comes
    from the service and may name a directory that is not there), the
    error of the open is raised instead, after the transfer and with no
    file changed. *)
Theorem download_keeps_archive (P : platform) (h apikey : string) (verbose : bool)
    (w w1 : world) (kv : list (string * value)) (code : value) (h0 key : string)
    (r : response) :
  h ≠ "" →
  check P h apikey verbose w = (inr (VDict kv), w1) →
  assoc "code" kv = Some code → ne_zero code = false →
  assoc "sha256hash" kv = Some (VStr h0) →
  already_present P w1 h0 = false →
  getApikey P apikey = inr key →
  server P (sent w1) (GET (download_url key h0)) = inr r →
  ok r = true → content r ≠ "" →
  (can_write P (h0 +:+ ".zip") →
   ∃ w2,
     download P h apikey false verbose w = (inr (VStr (h0 +:+ ".zip")), w2)
     ∧ files w2 !! (h0 +:+ ".zip") = Some (content r)
     ∧ (∀ p, p ≠ h0 +:+ ".zip" → files w2 !! p = files w !! p)
     ∧ sent w2 = sent w ++ [GET (check_url key h); GET (download_url key h0)])
  ∧ (∀ e extract, open_wb P (files w) (h0 +:+ ".zip") = Some e →
     download P h apikey extract verbose w
     = (inl e, World (files w)
                 (sent w ++ [GET (check_url key h); GET (download_url key h0)]))).
Proof.
  intros Hh Hc Hcode Hzero Hsha Hlocal Hkey Hsrv Hok Hbody. split.
  - intros Hwrite. eexists. split.
    { apply (download_saves_archive P h apikey verbose w w1 kv code h0 key r);
        assumption. }
    destruct (check_returns_world _ _ _ _ _ _ _ Hc) as (key' & Hkey' & ->).
    rewrite Hkey in Hkey'. injection Hkey' as <-.
    cbn [files sent]. split; [apply lookup_insert_eq |]. split.
    + intros p Hp. now rewrite lookup_insert_ne.
    + now rewrite <- app_assoc.
  - intros e extract He.
    rewrite (download_found_str P h apikey extract verbose w w1 kv code h0)
      by assumption.
    rewrite Hlocal.
    unfold bind at 1. unfold lift at 1. rewrite Hkey.
    unfold bind at 1. unfold requests_get at 1. rewrite Hsrv, Hok.
    rewrite (truthy_str_ne _ Hbody). cbn [negb orb].
    destruct (check_returns_world _ _ _ _ _ _ _ Hc) as (key' & Hkey' & ->).
    rewrite Hkey in Hkey'. injection Hkey' as <-.
    unfold bind at 1. unfold write_binary at 1. cbn [files sent].
    rewrite He. now rewrite <- app_assoc.
Qed.

Lemma download_keeps_archive_witness :
  let P := Depot.platform_of "" (Sample.env_key "K") Depot.known_c0ffee
             Depot.archive Depot.unknown in
  let w := World {[ "c0ffee.zip" := "old" ]} [] in
  ∃ w2,
    download P "abc" "" false false w = (inr (VStr ("c0ffee" +:+ ".zip")), w2)
    ∧ files w2 !! ("c0ffee" +:+ ".zip") = Some "PK"
    ∧ (∀ p, p ≠ "c0ffee" +:+ ".zip" → files w2 !! p = files w !! p)
    ∧ sent w2 = [] ++ [GET (check_url "K" "abc"); GET (download_url "K" "c0ffee")].
Proof.
  intros P w.
  refine (proj1 (download_keeps_archive P "abc" "" false w
            (World (files w) [GET (check_url "K" "abc")])
            [("code", VInt 0); ("sha256hash", VStr "c0ffee")] (VInt 0)
            "c0ffee" "K" Depot.archive _ eq_refl eq_refl eq_refl eq_refl
            eq_refl eq_refl eq_refl eq_refl _) _).
  - intros E. discriminate E.
  - intros E. discriminate E.
  - intros fs. reflexivity.
Defined.

(** X8.  When the answer to the transfer has a client or server error
    status, or an empty body, [download] returns [None] and writes
    nothing: the files are exactly as before. *)
Theorem download_refused_is_none (P : platform) (h apikey : string)
    (extract verbose : bool) (w w1 : world) (kv : list (string * value))
    (code : value) (h0 key : string) (r : response) :
  h ≠ "" →
  check P h apikey verbose w = (inr (VDict kv), w1) →
  assoc "code" kv = Some code → ne_zero code = false →
  assoc "sha256hash" kv = Some (VStr h0) →
  already_present P w1 h0 = false →
  getApikey P apikey = inr key →
  server P (sent w1) (GET (download_url key h0)) = inr r →
  400 <= status_code r < 600 ∨ content r = "" →
  ∃ w2,
    download P h apikey extract verbose w = (inr VNone, w2)
    ∧ files w2 = files w
    ∧ sent w2 = sent w ++ [GET (check_url key h); GET (download_url key h0)].
Proof.
  intros Hh Hc Hcode Hzero Hsha Hlocal Hkey Hsrv Hbad.
  eexists. split.
  { apply (download_transfer_refused P h apikey extract verbose w w1 kv code
             h0 key r); try assumption.
    destruct Hbad as [Hst | Hempty]; [left | now right].
    unfold ok. apply negb_false_iff, andb_true_iff. split; lia. }
  destruct (check_returns_world _ _ _ _ _ _ _ Hc) as (key' & Hkey' & ->).
  rewrite Hkey in Hkey'. injection Hkey' as <-.
  cbn [files sent]. split; [reflexivity | now rewrite <- app_assoc].
Qed.

Lemma download_refused_is_none_witness :
  let P := Depot.platform_of "" (Sample.env_key "K") Depot.known_c0ffee
             (Response 404 "gone") Depot.unknown in
  ∃ w2,
    download P "abc" "" true false Sample.empty_world = (inr VNone, w2)
    ∧ files w2 = files Sample.empty_world
    ∧ sent w2 = [] ++ [GET (check_url "K" "abc"); GET (download_url "K" "c0ffee")].
Proof.
  intros P.
  refine (download_refused_is_none P "abc" "" true false Sample.empty_world
            (World ∅ [GET (check_url "K" "abc")])
            [("code", VInt 0); ("sha256hash", VStr "c0ffee")] (VInt 0)
            "c0ffee" "K" (Response 404 "gone") _ eq_refl eq_refl eq_refl eq_refl
            eq_refl eq_refl eq_refl _).
  - intros E. discriminate E.
  - left. cbn. lia.
Defined.

(** ** How many requests *)

Section Sends.

Variable P : platform.

Lemma sends_weaken {A} (n n' : nat) (m : IO A) :
  (n ≤ n')%nat → sends_at_most n m → sends_at_most n' m.
Proof.
  intros Hle Hm w. destruct (Hm w) as (l & Hl & Hlen & Hget).
  exists l. split; [exact Hl |]. split; [lia | exact Hget].
Qed.

Lemma sends_keeps {A} (m : IO A) :
  (∀ w, sent (m w).2 = sent w) → sends_at_most 0 m.
Proof.
  intros Hm w. exists []. rewrite Hm, app_nil_r.
  split; [reflexivity |]. split; [reflexivity | constructor].
Qed.

Lemma sends_ret {A} (a : A) : sends_at_most 0 (ret a).
Proof. now apply sends_keeps. Qed.

Lemma sends_raise {A} (e : exn) : sends_at_most 0 (@raise A e).
Proof. now apply sends_keeps. Qed.

Lemma sends_lift {A} (r : exn + A) : sends_at_most 0 (lift r).
Proof. now apply sends_keeps. Qed.

Lemma sends_bind {A B} (a b : nat) (m : IO A) (k : A → IO B) :
  sends_at_most a m → (∀ x, sends_at_most b (k x)) →
  sends_at_most (a + b) (bind m k).
Proof.
  intros Hm Hk w. unfold bind.
  destruct (Hm w) as (l1 & Hl1 & Hlen1 & Hget1).
  destruct (m w) as [[e | x] w1]; cbn [snd] in *.
  - exists l1. split; [exact Hl1 |]. split; [lia | exact Hget1].
  - destruct (Hk x w1) as (l2 & Hl2 & Hlen2 & Hget2).
    exists (l1 ++ l2). rewrite Hl2, Hl1, app_assoc.
    split; [reflexivity |]. split.
    + rewrite length_app. lia.
    + now apply Forall_app.
Qed.

Lemma sends_bind_quiet {A B} (n : nat) (m : IO A) (k : A → IO B) :
  sends_at_most 0 m → (∀ x, sends_at_most n (k x)) →
  sends_at_most n (bind m k).
Proof. intros Hm Hk. exact (sends_bind 0 n m k Hm Hk). Qed.

Lemma sends_requests_get (url : string) : sends_at_most 1 (requests_get P url).
Proof.
  intros w. exists [GET url]. cbn. split; [reflexivity |].
  split; [lia | repeat constructor].
Qed.

Lemma sends_bind_get {B} (n : nat) (url : string) (k : response → IO B) :
  (∀ x, sends_at_most n (k x)) →
  sends_at_most (S n) (bind (requests_get P url) k).
Proof. intros Hk. exact (sends_bind 1 n _ k (sends_requests_get url) Hk). Qed.

Lemma sends_isfile (p : value) : sends_at_most 0 (isfile P p).
Proof. apply sends_keeps. intros w. now destruct p. Qed.

Lemma sends_read_binary (p : value) : sends_at_most 0 (read_binary P p).
Proof.
  apply sends_keeps. intros w. destruct p; try reflexivity.
  cbn. now destruct (files w !! s).
Qed.

Lemma sends_write_binary (path : string) (data : bytes) :
  sends_at_most 0 (write_binary P path data).
Proof.
  apply sends_keeps. intros w. unfold write_binary.
  now destruct (open_wb P (files w) path).
Qed.

Lemma sends_unlink (path : string) : sends_at_most 0 (unlink path).
Proof.
  apply sends_keeps. intros w. unfold unlink. now destruct (files w !! path).
Qed.

Lemma sends_getitem (r : value) (key : string) : sends_at_most 0 (getitem r key).
Proof.
  apply sends_keeps. intros w. destruct r; try reflexivity.
  cbn. now destruct (assoc key kv).
Qed.

Lemma sends_get (r : value) (key : string) : sends_at_most 0 (get r key).
Proof. apply sends_keeps. intros w. now destruct r. Qed.

Lemma sends_lower (x : value) : sends_at_most 0 (lower x).
Proof. apply sends_keeps. intros w. now destruct x. Qed.

Lemma sends_add_str (x : value) (suffix : string) :
  sends_at_most 0 (add_str x suffix).
Proof. apply sends_keeps. intros w. now destruct x. Qed.

Lemma sends_first (l : list string) : sends_at_most 0 (first l).
Proof. apply sends_keeps. intros w. now destruct l. Qed.

Lemma sends_extractall (ms : list member) (pwd : bytes) :
  sends_at_most 0 (extractall P ms pwd).
Proof.
  induction ms as [| m ms IH]; [apply sends_ret |].
  cbn [extractall]. destruct (m_target m) as [path |]; [| exact IH].
  destruct (m_read m pwd) as [data | e | e partial].
  - apply sends_bind_quiet; [apply sends_write_binary | intros _; exact IH].
  - apply sends_raise.
  - apply sends_bind_quiet; [apply sends_write_binary | intros _; apply sends_raise].
Qed.

Lemma sends_ZipFile (path : string) : sends_at_most 0 (ZipFile P path).
Proof.
  unfold ZipFile. apply sends_bind_quiet; [apply sends_read_binary | intros data].
  apply sends_lift.
Qed.

Lemma sends_check (h apikey : string) (verbose : bool) :
  sends_at_most 1 (check P h apikey verbose).
Proof.
  unfold check. apply sends_bind_quiet; [apply sends_lift | intros key].
  apply sends_bind_get. intros r. apply sends_lift.
Qed.

Ltac quiet :=
  repeat first
    [ apply sends_ret | apply sends_raise | apply sends_lift
    | apply sends_isfile | apply sends_read_binary | apply sends_write_binary
    | apply sends_unlink | apply sends_getitem | apply sends_get
    | apply sends_lower | apply sends_add_str | apply sends_first
    | apply sends_extractall | apply sends_ZipFile
    | apply (sends_weaken 0); [lia | apply sends_ret]
    | apply (sends_weaken 0); [lia | apply sends_raise]
    | apply sends_bind_get; intros ?
    | apply sends_bind_quiet; [| intros ?]
    | match goal with
      | |- sends_at_most _ (if ?b then _ else _) => destruct b
      end ].

(** [download] in two requests at most. *)
Lemma sends_download (h apikey : string) (extract verbose : bool) :
  sends_at_most 2 (download P h apikey extract verbose).
Proof.
  unfold download.
  destruct (negb (truthy (VStr h))); [apply (sends_weaken 0); [lia | apply sends_raise] |].
  apply (sends_bind 1 1); [apply sends_check | intros r].
  quiet.
Qed.

End Sends.

(** X9.  Whatever the service answers and whatever is on disk,
    [download] adds at most two requests to the log, both of them
    [GET]s, and removes none: it never uploads, never retries, and what
    was sent before stays a prefix of the log, also when it raises. *)
Theorem download_sends_at_most_two (P : platform) (h apikey : string)
    (extract verbose : bool) (w : world) :
  ∃ l, sent (download P h apikey extract verbose w).2 = sent w ++ l
       ∧ (length l ≤ 2)%nat ∧ Forall is_GET l.
Proof. exact (sends_download P h apikey extract verbose w). Qed.

(** ** Which errors *)

Section Raises.

Variable P : platform.
Hypothesis HP : well_behaved P.


Lemma rx_raise {A} (e : exn) : is_Exception e = true → raises_exceptions (@raise A e).
Proof. intros He w e' w' [= <- _]. exact He. Qed.

Lemma rx_lift {A} (r : exn + A) :
  (∀ e, r = inl e → is_Exception e = true) → raises_exceptions (lift r).
Proof. intros Hr w e w' [= -> _]. now apply Hr. Qed.

Lemma rx_bind_from {A B} (m : IO A) (k : A → IO B) :
  raises_exceptions m →
  (∀ x w w', m w = (inr x, w') → raises_exceptions (k x)) →
  raises_exceptions (bind m k).
Proof.
  intros Hm Hk w e w'. unfold bind.
  destruct (m w) as [[e1 | x] w1] eqn:Hmw.
  - intros [= <- _]. exact (Hm w e1 w1 Hmw).
  - intros Hkx. exact (Hk x w w1 Hmw w1 e w' Hkx).
Qed.

Lemma rx_bind {A B} (m : IO A) (k : A → IO B) :
  raises_exceptions m → (∀ x, raises_exceptions (k x)) →
  raises_exceptions (bind m k).
Proof. intros Hm Hk. apply rx_bind_from; [exact Hm | intros x _ _ _; apply Hk]. Qed.

Lemma rx_requests_get (url : string) : raises_exceptions (requests_get P url).
Proof.
  intros w e w' [= H _]. destruct HP as (Hsrv & _). exact (Hsrv _ _ _ H).
Qed.

Lemma rx_requests_post (url field : string) (body : bytes) :
  raises_exceptions (requests_post P url field body).
Proof.
  intros w e w' [= H _]. destruct HP as (Hsrv & _). exact (Hsrv _ _ _ H).
Qed.

Lemma rx_json (r : response) : raises_exceptions (json P r).
Proof.
  apply rx_lift. intros e H. destruct HP as (_ & Hjson & _). exact (Hjson _ _ H).
Qed.

Lemma rx_getApikey (apikey : string) : raises_exceptions (lift (getApikey P apikey)).
Proof.
  apply rx_lift. intros e H. now destruct (getApikey_error P apikey e H) as (-> & _).
Qed.


Lemma rx_read_binary (p : value) : raises_exceptions (read_binary P p).
Proof.
  destruct HP as (_ & _ & _ & _ & _ & Hfd & _).
  destruct p as [| b | n | f | path | l | kv];
    try (now apply rx_raise); try (apply rx_lift; intros e H; exact (Hfd _ _ H)).
  intros w e w'. cbn. destruct (files w !! path); intros [= <- _]; reflexivity.
Qed.











Lemma rx_check (h apikey : string) (verbose : bool) :
  raises_exceptions (check P h apikey verbose).
Proof.
  unfold check. apply rx_bind; [apply rx_getApikey | intros key].
  apply rx_bind; [apply rx_requests_get | intros r]. apply rx_json.
Qed.

Lemma rx_upload (filepath apikey : string) (verbose : bool) :
  raises_exceptions (upload P filepath apikey verbose).
Proof.
  unfold upload. apply rx_bind; [apply rx_getApikey | intros key].
  apply rx_bind; [apply rx_read_binary | intros body].
  apply rx_bind; [apply rx_requests_post | intros r]. apply rx_json.
Qed.



End Raises.

(** ** The command line as a whole *)

(** Building the entry list reads and never writes or sends. *)
Lemma scan_opts_world (P : platform) (opts : list (string * string))
    (st : settings) (w w' : world) (r : exn + settings) :
  scan_opts P opts st w = (r, w') → w' = w.
Proof.
  revert st. induction opts as [| [o a] opts IH]; intros st.
  - intros [= _ <-]. reflexivity.
  - cbn [scan_opts].
    destruct (String.eqb o "-v"); [apply IH |].
    destruct (String.eqb o "-x"); [apply IH |].
    destruct (String.eqb o "-f"); [| intros [= _ <-]; reflexivity].
    unfold bind at 1. unfold read_lines, bind at 1. cbn [read_binary].
    destruct (files w !! a) as [data |]; [| intros [= _ <-]; reflexivity].
    unfold bind at 1. unfold lift at 1.
    destruct (decode_text P data); [intros [= _ <-]; reflexivity | apply IH].
Qed.

Lemma settings_of_world (P : platform) (argv : list string) (w w' : world)
    (r : exn + settings) :
  settings_of P argv w = (r, w') → w' = w.
Proof.
  unfold settings_of.
  destruct (Getopt.getopt (drop 2 argv) "vxf:") as [e | [opts args]];
    [intros [= _ <-]; reflexivity |].
  unfold bind.
  destruct (scan_opts P opts (Settings false false []) w) as [[e | st] w1] eqn:Hs;
    apply scan_opts_world in Hs; subst w1; intros [= _ <-]; reflexivity.
Qed.


(** The sample platforms fail with library errors only. *)
Lemma Depot_well_behaved (key : string) (env : gmap string string)
    (checked served posted : response) :
  well_behaved (Depot.platform_of key env checked served posted).
Proof.
  unfold well_behaved. cbn.
  split; [| split; [| split; [| split; [| split; [| split]]]]].
  - intros hist [url | url field body] e; cbn; [| discriminate].
    destruct (Str.startswith _ url); discriminate.
  - intros body e. unfold Sample.loads.
    destruct (assoc body Depot.table); [discriminate | now intros [= <-]].
  - intros body e. unfold Sample.unzip.
    destruct (String.eqb body "PK"); [discriminate | now intros [= <-]].
  - intros body ms m pwd e. unfold Sample.unzip.
    destruct (String.eqb body "PK"); [| discriminate].
    intros [= <-] Hin. unfold Sample.two_entries in Hin.
    apply elem_of_cons in Hin as [-> | Hin].
    + cbn. destruct (String.eqb pwd "infected").
      * intros [H | (partial & H)]; discriminate H.
      * intros [[= <-] | (partial & H)]; [reflexivity | discriminate H].
    + apply list_elem_of_singleton in Hin as ->.
      intros [H | (partial & H)]; discriminate H.
  - discriminate.
  - now intros fd e [= <-].
  - discriminate.
Qed.

Lemma eqb_mode (action : string) :
  is_mode action →
  String.eqb action "check" = true
  ∨ (String.eqb action "check" = false ∧ String.eqb action "download" = true)
  ∨ (String.eqb action "check" = false ∧ String.eqb action "download" = false
     ∧ String.eqb action "upload" = true).
Proof. intros [-> | [-> | ->]]; cbn; auto. Qed.



(** The loop of [check] mode, request by request. *)
Lemma for_each_check (P : platform) (key : string) (verbose : bool)
    (l : list string) (w : world) :
  well_behaved P →
  getApikey P "" = inr key →
  for_each l (fun h => try_except (check P h "" verbose)) w
  = (inr tt, World (files w) (sent w ++ map (fun h => GET (check_url key h)) l)).
Proof.
  intros HP Hkey. revert w. induction l as [| h l IH]; intros w.
  - cbn. rewrite app_nil_r. now destruct w.
  - cbn [for_each map]. unfold bind, try_except.
    pose proof (rx_check P HP h "" verbose w) as Hrx.
    rewrite check_unfold, Hkey in *.
    destruct (match server P (sent w) (GET (check_url key h)) with
              | inl e => inl e
              | inr r => json_loads P (content r)
              end) as [e | v].
    + rewrite (Hrx e _ eq_refl), IH. cbn [files sent].
      now rewrite <- app_assoc.
    + rewrite IH. cbn [files sent]. now rewrite <- app_assoc.
Qed.

(** X11.  In [check] mode with a key, the command line asks the service
    about every entry of the list, once each and in the order of the
    list, whatever the answers are: a refused connection or a body that
    is not JSON for one entry does not keep the next from being asked.
    No file changes. *)
Theorem main_check_log (P : platform) (prog mode : string) (rest : list string)
    (w w1 : world) (st : settings) (key : string) :
  well_behaved P →
  Str.lower mode = "check" →
  getApikey P "" = inr key →
  settings_of P (prog :: mode :: rest) w = (inr st, w1) →
  main P (prog :: mode :: rest) w
  = (inr tt,
     World (files w) (sent w ++ map (fun h => GET (check_url key h)) (hlist st))).
Proof.
  intros HP Hmode Hkey Hst. cbn [main].
  rewrite (bind_returns _ _ _ _ _ Hst), Hmode. cbn [String.eqb Ascii.eqb Bool.eqb].
  apply settings_of_world in Hst. subst w1.
  now apply for_each_check.
Qed.

Lemma main_check_log_witness :
  let P := Depot.platform_of "" (Sample.env_key "K") (Response 200 "<html>")
             Depot.archive Depot.unknown in
  main P ["jebio.py"; "CHECK"; "abc,def"] Sample.empty_world
  = (inr tt,
     World ∅ ([] ++ map (fun h => GET (check_url "K" h)) (list_set ["abc"; "def"]))).
Proof.
  intros P.
  refine (main_check_log P "jebio.py" "CHECK" ["abc,def"]
            Sample.empty_world Sample.empty_world
            (Settings false false (list_set ["abc"; "def"])) "K"
            (Depot_well_behaved _ _ _ _ _) eq_refl eq_refl _).
  vm_compute. reflexivity.
Defined.

(** A loop none of whose bodies touches the world. *)
Lemma for_each_try_idle {A B} (body : A → IO B) (l : list A) (w : world) :
  (∀ x, ∃ e, is_Exception e = true ∧ body x w = (inl e, w)) →
  for_each l (fun x => try_except (body x)) w = (inr tt, w).
Proof.
  intros Hbody. induction l as [| x l IH]; [reflexivity |].
  cbn [for_each]. unfold bind, try_except.
  destruct (Hbody x) as (e & He & ->). now rewrite He.
Qed.

(** X12.  Without a key (none in the environment, none configured: the
    command line never passes one), every entry fails on the key and the
    failure is caught: in each of the three modes the run returns
    normally, having sent nothing and changed no file. *)
Theorem main_without_key (P : platform) (prog mode : string) (rest : list string)
    (w w1 : world) (st : settings) :
  environ P !! "JEBIO_APIKEY" = None → APIKEY P = "" →
  is_mode (Str.lower mode) →
  settings_of P (prog :: mode :: rest) w = (inr st, w1) →
  main P (prog :: mode :: rest) w = (inr tt, w).
Proof.
  intros Henv Hglobal Hmode Hst. cbn [main].
  assert (Hkey : getApikey P "" = inl MissingCredential).
  { unfold getApikey. cbn. now rewrite Henv, Hglobal. }
  rewrite (bind_returns _ _ _ _ _ Hst).
  apply settings_of_world in Hst. subst w1.
  destruct (eqb_mode _ Hmode) as [-> | [(-> & ->) | (-> & -> & ->)]];
    apply for_each_try_idle; intros h.
  - exists MissingCredential. split; [reflexivity |].
    now rewrite check_unfold, Hkey.
  - destruct (String.eqb_spec h "") as [-> | Hh].
    + exists (RaiseStr "A hash must be provided"). split; reflexivity.
    + exists MissingCredential. split; [reflexivity |].
      apply download_check_raises; [exact Hh |]. now rewrite check_unfold, Hkey.
  - exists MissingCredential. split; [reflexivity |].
    now rewrite upload_unfold, Hkey.
Qed.

Lemma main_without_key_witness :
  let P := Depot.platform_of "" Sample.no_env Depot.known_c0ffee
             Depot.archive Depot.unknown in
  let w := World {[ "sample.bin" := "MZ" ]} [] in
  main P ["jebio.py"; "upload"; "sample.bin"] w = (inr tt, w).
Proof.
  intros P w.
  refine (main_without_key P "jebio.py" "upload" ["sample.bin"] w w
            (Settings false false (list_set ["sample.bin"]))
            eq_refl eq_refl _ _).
  - right. right. reflexivity.
  - vm_compute. reflexivity.
Defined.

(** X13.  The three ways to the usage text.  A command line without a
    mode, one whose options do not parse (an unknown letter, a [--long]
    option, [-f] without a value), and one whose mode is none of the
    three all end the process with exit status -1, nothing sent and no
    file changed; with a wrong mode that happens only after the list
    files have been read.  The mode word is taken in ASCII, where
    [Str.lower] is Python's [lower()]. *)
Theorem main_usage_exits (P : platform) (w : world) :
  (∀ argv, (length argv ≤ 1)%nat → main P argv w = (inl (SystemExit (-1)), w))
  ∧ (∀ prog mode rest e,
       Getopt.getopt rest "vxf:" = inl e →
       main P (prog :: mode :: rest) w = (inl (SystemExit (-1)), w))
  ∧ (∀ prog mode rest st w1,
       settings_of P (prog :: mode :: rest) w = (inr st, w1) →
       is_ascii mode →
       ¬ is_mode (Str.lower mode) →
       main P (prog :: mode :: rest) w = (inl (SystemExit (-1)), w)).
Proof.
  split; [| split].
  - intros [| a [| b argv]] Hlen; [reflexivity | reflexivity | cbn in Hlen; lia].
  - intros prog mode rest e Hopt. cbn [main]. unfold bind, settings_of.
    change (drop 2 (prog :: mode :: rest)) with rest. now rewrite Hopt.
  - intros prog mode rest st w1 Hst _ Hmode. cbn [main].
    rewrite (bind_returns _ _ _ _ _ Hst).
    apply settings_of_world in Hst. subst w1. unfold is_mode in Hmode.
    destruct (String.eqb_spec (Str.lower mode) "check"); [tauto |].
    destruct (String.eqb_spec (Str.lower mode) "download"); [tauto |].
    destruct (String.eqb_spec (Str.lower mode) "upload"); [tauto |].
    reflexivity.
Qed.

Lemma main_usage_exits_witness :
  let P := Depot.platform_of "" (Sample.env_key "K") Depot.known_c0ffee
             Depot.archive Depot.unknown in
  let w := World {[ "list.txt" := Sample.list_txt ]} [] in
  main P ["jebio.py"] w = (inl (SystemExit (-1)), w)
  ∧ main P ["jebio.py"; "check"; "-q"; "abc"] w = (inl (SystemExit (-1)), w)
  ∧ main P ["jebio.py"; "fetch"; "-f"; "list.txt"] w = (inl (SystemExit (-1)), w).
Proof.
  intros P w.
  destruct (main_usage_exits P w) as (H1 & H2 & H3).
  split; [| split].
  - apply H1. cbn. lia.
  - apply (H2 "jebio.py" "check" ["-q"; "abc"] GetoptError). reflexivity.
  - apply (H3 "jebio.py" "fetch" ["-f"; "list.txt"]
             (Settings false false ["abc123"]) w).
    + vm_compute. reflexivity.
    + cbn [is_ascii]. repeat split; apply Nat.ltb_lt; reflexivity.
    + intros [E | [E | E]]; discriminate E.
Defined.

(** The loop over the options does not get past a list file that is not
    there. *)
Lemma scan_opts_missing_raises (P : platform) (opts : list (string * string))
    (st : settings) (w : world) :
  Forall known opts →
  (∃ path, ("-f", path) ∈ opts ∧ files w !! path = None) →
  ∃ e, scan_opts P opts st w = (inl e, w).
Proof.
  intros Hknown. revert st.
  induction Hknown as [| [o a] opts Hoa _ IH]; intros st (path & Hin & Hnone).
  - inversion Hin.
  - assert (Hnext : ∀ st', o ≠ "-f" ∨ is_Some (files w !! a) →
              ∃ e, scan_opts P opts st' w = (inl e, w)).
    { intros st' Hhere. apply IH. exists path. split; [| exact Hnone].
      apply elem_of_cons in Hin as [[= <- <-] | Hin]; [| exact Hin].
      destruct Hhere as [Hne | [d Hd]]; [now destruct Hne |].
      rewrite Hnone in Hd. discriminate Hd. }
    destruct Hoa as [Ho | [Ho | Ho]]; cbn [fst] in Ho; subst o.
    + apply Hnext. left. discriminate.
    + apply Hnext. left. discriminate.
    + cbn [scan_opts]. cbn [String.eqb Ascii.eqb Bool.eqb].
      unfold bind at 1. unfold read_lines, bind at 1. cbn [read_binary].
      destruct (files w !! a) as [data |] eqn:Ha; [| now eexists].
      unfold bind at 1. unfold lift at 1.
      destruct (decode_text P data) as [e | text]; [now exists e |].
      cbn [ret]. apply Hnext. right. eauto.
Qed.

(** When the list files that are there decode, it stops at the first
    one that is not there, with the error of the open. *)
Lemma scan_opts_missing (P : platform) (opts : list (string * string))
    (st : settings) (w : world) :
  Forall known opts →
  (∀ path data, ("-f", path) ∈ opts → files w !! path = Some data →
                ∃ text, decode_text P data = inr text) →
  (∃ path, ("-f", path) ∈ opts ∧ files w !! path = None) →
  ∃ path, ("-f", path) ∈ opts ∧ files w !! path = None
          ∧ scan_opts P opts st w = (inl (FileNotFoundError path), w).
Proof.
  intros Hknown. revert st.
  induction Hknown as [| [o a] opts Hoa _ IH]; intros st Hdec (path & Hin & Hnone).
  - inversion Hin.
  - assert (Hnext : ∀ st', o ≠ "-f" ∨ is_Some (files w !! a) →
              ∃ path', ("-f", path') ∈ (o, a) :: opts ∧ files w !! path' = None
                       ∧ scan_opts P opts st' w = (inl (FileNotFoundError path'), w)).
    { intros st' Hhere.
      destruct (IH st') as (path' & Hin' & Hnone' & Hrun).
      - intros p d Hp. apply Hdec, elem_of_cons. now right.
      - exists path. split; [| exact Hnone].
        apply elem_of_cons in Hin as [[= <- <-] | Hin]; [| exact Hin].
        destruct Hhere as [Hne | [d Hd]]; [now destruct Hne |].
        rewrite Hnone in Hd. discriminate Hd.
      - exists path'. split; [apply elem_of_cons; now right |]. now split. }
    destruct Hoa as [Ho | [Ho | Ho]]; cbn [fst] in Ho; subst o.
    + apply Hnext. left. discriminate.
    + apply Hnext. left. discriminate.
    + cbn [scan_opts]. cbn [String.eqb Ascii.eqb Bool.eqb].
      unfold bind at 1. unfold read_lines, bind at 1. cbn [read_binary].
      destruct (files w !! a) as [data |] eqn:Ha.
      * destruct (Hdec a data) as (text & Htext);
          [apply elem_of_cons; now left | exact Ha |].
        unfold bind at 1. unfold lift at 1. rewrite Htext.
        cbn [ret]. apply Hnext. right. eauto.
      * exists a. split; [apply elem_of_cons; now left |]. now split.
Qed.

(** X14.  A list file named by [-f] that does not exist ends the whole
    run with an error, whatever the mode: the error is raised before
    the loop over the entries, where nothing catches it, so no entry is
    processed (the positional ones included) and nothing is sent.  The
    error is the file error of the first list file that is missing,
    provided the list files before it decode. *)
Theorem main_missing_list_file (P : platform) (prog mode : string)
    (rest : list string) (w : world) (opts : list (string * string))
    (args : list string) (path : string) :
  Getopt.getopt rest "vxf:" = inr (opts, args) →
  ("-f", path) ∈ opts →
  files w !! path = None →
  (∃ e, main P (prog :: mode :: rest) w = (inl e, w))
  ∧ ((∀ p data, ("-f", p) ∈ opts → files w !! p = Some data →
                ∃ text, decode_text P data = inr text) →
     ∃ path', ("-f", path') ∈ opts ∧ files w !! path' = None
              ∧ main P (prog :: mode :: rest) w = (inl (FileNotFoundError path'), w)).
Proof.
  intros Hopt Hin Hnone.
  assert (Hmain : ∀ e, scan_opts P opts (Settings false false []) w = (inl e, w) →
                       main P (prog :: mode :: rest) w = (inl e, w)).
  { intros e Hrun. cbn [main]. unfold bind at 1. unfold settings_of.
    change (drop 2 (prog :: mode :: rest)) with rest. rewrite Hopt.
    unfold bind at 1. now rewrite Hrun. }
  split.
  - destruct (scan_opts_missing_raises P opts (Settings false false []) w
                (getopt_known _ _ _ Hopt)) as (e & Hrun); [now exists path |].
    exists e. now apply Hmain.
  - intros Hdec.
    destruct (scan_opts_missing P opts (Settings false false []) w
                (getopt_known _ _ _ Hopt) Hdec) as (path' & Hin' & Hnone' & Hrun);
      [now exists path |].
    exists path'. split; [exact Hin' |]. split; [exact Hnone' |]. now apply Hmain.
Qed.

Lemma main_missing_list_file_witness :
  let P := Depot.platform_of "" (Sample.env_key "K") Depot.known_c0ffee
             Depot.archive Depot.unknown in
  ∃ path', ("-f", path') ∈ [("-v", ""); ("-f", "nolist.txt")]
           ∧ files Sample.empty_world !! path' = None
           ∧ main P ["jebio.py"; "check"; "-vf"; "nolist.txt"; "abc"] Sample.empty_world
             = (inl (FileNotFoundError path'), Sample.empty_world).
Proof.
  intros P.
  refine (proj2 (main_missing_list_file P "jebio.py" "check"
            ["-vf"; "nolist.txt"; "abc"]
            Sample.empty_world [("-v", ""); ("-f", "nolist.txt")] ["abc"]
            "nolist.txt" eq_refl _ eq_refl) _).
  - apply elem_of_cons. right. apply elem_of_cons. now left.
  - intros p data _ _. now exists data.
Defined.

(** X15.  Option parsing stops at the first argument that is not an
    option.  When the argument after the mode does not start with a
    dash (or is a lone dash), no flag is set, whatever follows: a [-x] or
    [-v] written after the first hash is not a flag but one more entry
    of the list, and so is every later argument. *)
Theorem options_after_entry (P : platform) (prog mode a : string)
    (rest : list string) (w : world) :
  Str.startswith "-" a = false ∨ a = "-" →
  ∃ st, settings_of P (prog :: mode :: a :: rest) w = (inr st, w)
        ∧ verbose st = false ∧ extract st = false
        ∧ ∀ e, e ∈ hlist st ↔ from_arguments (a :: rest) e.
Proof.
  intros Ha. unfold settings_of.
  change (drop 2 (prog :: mode :: a :: rest)) with (a :: rest).
  assert (Hstop : Getopt.getopt (a :: rest) "vxf:" = inr ([], a :: rest)).
  { cbn [Getopt.getopt]. destruct Ha as [-> | ->]; reflexivity. }
  rewrite Hstop. eexists. split; [reflexivity |].
  cbn [verbose extract hlist]. split; [reflexivity |]. split; [reflexivity |].
  intros e. unfold list_set.
  rewrite elem_of_elements, elem_of_list_to_set, extend_args_elem, elem_of_nil.
  tauto.
Qed.

Lemma options_after_entry_witness :
  let P := Depot.platform_of "" (Sample.env_key "K") Depot.known_c0ffee
             Depot.archive Depot.unknown in
  ∃ st, settings_of P ["jebio.py"; "download"; "abc"; "-x"] Sample.empty_world
        = (inr st, Sample.empty_world)
        ∧ verbose st = false ∧ extract st = false
        ∧ ∀ e, e ∈ hlist st ↔ from_arguments ["abc"; "-x"] e.
Proof.
  intros P.
  refine (options_after_entry P "jebio.py" "download" "abc" ["-x"]
            Sample.empty_world _).
  left. reflexivity.
Defined.

(** What the loop over the options does to the two flags. *)
Lemma scan_opts_flags (P : platform) (opts : list (string * string))
    (st st' : settings) (w w' : world) :
  scan_opts P opts st w = (inr st', w') →
  (verbose st' = true ↔ verbose st = true ∨ ∃ a, ("-v", a) ∈ opts)
  ∧ (extract st' = true ↔ extract st = true ∨ ∃ a, ("-x", a) ∈ opts).
Proof.
  revert st w. induction opts as [| [o a] opts IH]; intros st w.
  - intros [= <- _]. split; (split; [now left |]);
      (intros [H | (a & Hin)]; [exact H | inversion Hin]).
  - assert (Hcons : ∀ flag, (∃ a', (flag, a') ∈ (o, a) :: opts)
                            ↔ o = flag ∨ ∃ a', (flag, a') ∈ opts).
    { intros flag. split.
      - intros (a' & Hin). apply elem_of_cons in Hin as [[= <- <-] | Hin];
          [now left | right; now exists a'].
      - intros [<- | (a' & Hin)].
        + exists a. apply elem_of_cons. now left.
        + exists a'. apply elem_of_cons. now right. }
    cbn [scan_opts]. rewrite !Hcons.
    destruct (String.eqb_spec o "-v") as [-> | Hv].
    { intros H. apply IH in H as [Hverb Hext]. cbn [verbose extract] in *.
      rewrite Hverb, Hext. split; [tauto |].
      split; [tauto | intros [H | [[=] | H]]; tauto]. }
    destruct (String.eqb_spec o "-x") as [-> | Hx].
    { intros H. apply IH in H as [Hverb Hext]. cbn [verbose extract] in *.
      rewrite Hverb, Hext. split; [| tauto].
      split; [tauto | intros [H | [[=] | H]]; tauto]. }
    destruct (String.eqb o "-f"); [| discriminate].
    unfold bind at 1.
    destruct (read_lines P a w) as [[e | lines] w1]; [discriminate |].
    intros H. apply IH in H as [Hverb Hext]. cbn [verbose extract] in *.
    rewrite Hverb, Hext. split; (split; [tauto | intros [H | [H | H]]; tauto]).
Qed.

(** X16.  The flags of the built settings are exactly the options given:
    [verbose] is set if and only if a [-v] is among the parsed options
    and [extract] if and only if a [-x] is, in any order, any number of
    times, alone or in a cluster with others; no option clears a flag,
    and a list file sets none. *)
Theorem settings_of_flags (P : platform) (argv : list string) (w w' : world)
    (opts : list (string * string)) (args : list string) (st : settings) :
  Getopt.getopt (drop 2 argv) "vxf:" = inr (opts, args) →
  settings_of P argv w = (inr st, w') →
  (verbose st = true ↔ ∃ a, ("-v", a) ∈ opts)
  ∧ (extract st = true ↔ ∃ a, ("-x", a) ∈ opts).
Proof.
  intros Hopt. unfold settings_of. rewrite Hopt. unfold bind.
  destruct (scan_opts P opts (Settings false false []) w) as [[e | st0] w1] eqn:Hs;
    [discriminate |].
  intros [= <- _]. cbn [verbose extract].
  apply scan_opts_flags in Hs as [Hverb Hext]. cbn [verbose extract] in *.
  rewrite Hverb, Hext. split; (split; [intros [[=] | H]; exact H | now right]).
Qed.

Lemma settings_of_flags_witness :
  let P := Depot.platform_of "" (Sample.env_key "K") Depot.known_c0ffee
             Depot.archive Depot.unknown in
  let w := World {[ "list.txt" := Sample.list_txt ]} [] in
  (verbose (Settings false true ["abc123"]) = true
   ↔ ∃ a, ("-v", a) ∈ [("-x", ""); ("-f", "list.txt"); ("-x", "")])
  ∧ (extract (Settings false true ["abc123"]) = true
     ↔ ∃ a, ("-x", a) ∈ [("-x", ""); ("-f", "list.txt"); ("-x", "")]).
Proof.
  intros P w.
  refine (settings_of_flags P ["jebio.py"; "download"; "-xflist.txt"; "-x"] w w
            [("-x", ""); ("-f", "list.txt"); ("-x", "")] [] _ eq_refl _).
  vm_compute. reflexivity.
Defined.

(** ** Downloading twice *)

Lemma zip_name_differs (s : string) : s ≠ s +:+ ".zip".
Proof.
  induction s as [| c s IH]; [discriminate |].
  intros [= H]. exact (IH H).
Qed.

Section Again.

Variables (P : platform) (h apikey : string) (verbose : bool) (w w1 : world).
Variables (kv : list (string * value)) (code : value) (h0 key : string).
Variables (r : response) (m0 : member) (ms : list member).

(** A first download with [extract] that goes all the way, as in the
    extraction section. *)
Hypothesis Hh : h ≠ "".
Hypothesis Hcheck : check P h apikey verbose w = (inr (VDict kv), w1).
Hypothesis Hcode : assoc "code" kv = Some code.
Hypothesis Hzero : ne_zero code = false.
Hypothesis Hsha : assoc "sha256hash" kv = Some (VStr h0).
Hypothesis Hlocal : already_present P w1 h0 = false.
Hypothesis Hkey : getApikey P apikey = inr key.
Hypothesis Hserved : server P (sent w1) (GET (download_url key h0)) = inr r.
Hypothesis Hok : ok r = true.
Hypothesis Hbody : content r ≠ "".
Hypothesis Hwrite : can_write P (h0 +:+ ".zip").
Hypothesis Hzip : zip_entries P (content r) = inr (m0 :: ms).
Hypothesis Hread : Forall (readable "infected") (m0 :: ms).
Hypothesis Hunpack : can_unpack P (m0 :: ms).
(** The archive puts the sample at its canonical name: the zip library
    writes an entry to the path [h0], and what is written there has
    digest [h0]. *)
Hypothesis Hh0 : h0 ≠ "".
Hypothesis Hentry : ∃ m, m ∈ m0 :: ms ∧ m_target m = Some h0.
Hypothesis Hdigest :
  ∀ m data, m ∈ m0 :: ms → m_target m = Some h0 →
            m_read m "infected" = Data data →
            Str.lower (sha256_hexdigest P data) = Str.lower h0.
(** The service goes on answering the check in the same way. *)
Hypothesis Hsame :
  ∀ w2, ∃ w3, check P h apikey verbose w2 = (inr (VDict kv), w3).

(** X17.  After a download with [extract] has saved its archive and
    unpacked it, with the sample written by the zip library at the path
    [h0] and of digest [h0], downloading the same hash again (with or
    without [extract]) asks the service for the check only and returns
    [h0]: the second call transfers nothing and changes no file. *)
Theorem download_again_is_local (extract' : bool) :
  ∃ w2 w3,
    download P h apikey true verbose w = (inr (VStr (m_name m0)), w2)
    ∧ download P h apikey extract' verbose w2 = (inr (VStr h0), w3)
    ∧ files w3 = files w2
    ∧ sent w3 = sent w2 ++ [GET (check_url key h)].
Proof using All.
  eexists. destruct (Hsame (World (delete (h0 +:+ ".zip")
                (unpack (m0 :: ms) "infected"
                   (<[h0 +:+ ".zip" := content r]> (files w1))))
             (sent w1 ++ [GET (download_url key h0)]))) as (w3 & Hagain).
  exists w3. split.
  { apply (download_extract_run P h apikey verbose w w1 kv code h0 key r m0 ms);
      assumption. }
  destruct (check_returns_world _ _ _ _ _ _ _ Hagain) as (key' & Hkey' & Hw3).
  rewrite Hkey in Hkey'. injection Hkey' as <-.
  split; [| subst w3; split; reflexivity].
  rewrite (download_found_str P h apikey extract' verbose _ w3 kv code h0)
    by assumption.
  destruct Hentry as (m & Hin & Htarget).
  destruct (unpack_lookup (m0 :: ms) "infected"
              (<[h0 +:+ ".zip" := content r]> (files w1)) m h0 Hread Hin Htarget)
    as (m' & data & Hin' & Htarget' & Hdata & Hlook).
  assert (Hpresent : already_present P w3 h0 = true).
  { unfold already_present. apply truthy_str in Hh0. rewrite Hh0. subst w3.
    cbn [files andb]. rewrite lookup_delete_ne by (intros E; symmetry in E;
      exact (zip_name_differs h0 E)).
    rewrite Hlook, (Hdigest m' data Hin' Htarget' Hdata). apply String.eqb_refl. }
  now rewrite Hpresent.
Qed.

End Again.

Lemma download_again_is_local_witness :
  ∃ w2 w3,
    download Depot.canonical "abc" "" true false Sample.empty_world
    = (inr (VStr (m_name Depot.canonical_entry)), w2)
    ∧ download Depot.canonical "abc" "" false false w2 = (inr (VStr "c0ffee"), w3)
    ∧ files w3 = files w2
    ∧ sent w3 = sent w2 ++ [GET (check_url "K" "abc")].
Proof.
  refine (download_again_is_local Depot.canonical "abc" "" false Sample.empty_world
            (World ∅ [GET (check_url "K" "abc")])
            [("code", VInt 0); ("sha256hash", VStr "c0ffee")] (VInt 0)
            "c0ffee" "K" Depot.archive Depot.canonical_entry []
            _ eq_refl eq_refl eq_refl eq_refl eq_refl eq_refl eq_refl eq_refl
            _ _ eq_refl _ _ _ _ _ _ false).
  - intros E. discriminate E.
  - intros E. discriminate E.
  - intros fs. reflexivity.
  - constructor; [right; eexists; reflexivity | constructor].
  - intros m path _ _ fs. reflexivity.
  - intros E. discriminate E.
  - exists Depot.canonical_entry. split; [apply elem_of_cons; now left | reflexivity].
  - intros m data _ _ _. reflexivity.
  - intros w2. rewrite check_unfold. eexists. reflexivity.
Defined.

(** ** When the archive cannot be unpacked *)

(** X18.  A download with [extract] whose archive cannot be unpacked
    raises and leaves the archive behind, because the unlink comes after
    the unpacking and is never reached.  When the zip library rejects
    the body, when the archive lists no entry, and when its first entry
    is refused for its password, the error reaches the caller with
    [<h0>.zip] on disk holding the body and nothing else changed.  When
    the first entry breaks off while it is copied, the error reaches the
    caller with the archive on disk and with what was copied so far at
    the target of the entry. *)
Theorem download_extract_failure_keeps_archive (P : platform) (h apikey : string)
    (verbose : bool) (w w1 : world) (kv : list (string * value)) (code : value)
    (h0 key : string) (r : response) :
  h ≠ "" →
  check P h apikey verbose w = (inr (VDict kv), w1) →
  assoc "code" kv = Some code → ne_zero code = false →
  assoc "sha256hash" kv = Some (VStr h0) →
  already_present P w1 h0 = false →
  getApikey P apikey = inr key →
  server P (sent w1) (GET (download_url key h0)) = inr r →
  ok r = true → content r ≠ "" →
  can_write P (h0 +:+ ".zip") →
  (((∃ e, zip_entries P (content r) = inl e)
    ∨ zip_entries P (content r) = inr []
    ∨ (∃ m0 ms path e, zip_entries P (content r) = inr (m0 :: ms)
                       ∧ m_target m0 = Some path
                       ∧ m_read m0 "infected" = Refused e)) →
   ∃ e w2,
     download P h apikey true verbose w = (inl e, w2)
     ∧ files w2 = <[h0 +:+ ".zip" := content r]> (files w1)
     ∧ sent w2 = sent w1 ++ [GET (download_url key h0)])
  ∧ (∀ m0 ms path e partial,
       zip_entries P (content r) = inr (m0 :: ms) →
       m_target m0 = Some path →
       m_read m0 "infected" = Broken e partial →
       can_write P path → path ≠ h0 +:+ ".zip" →
       ∃ w2,
         download P h apikey true verbose w = (inl e, w2)
         ∧ files w2 !! (h0 +:+ ".zip") = Some (content r)
         ∧ files w2 !! path = Some partial
         ∧ sent w2 = sent w1 ++ [GET (download_url key h0)]).
Proof.
  intros Hh Hc Hcode Hzero Hsha Hlocal Hkey Hsrv Hok Hbody Hwrite.
  set (w2 := World (<[h0 +:+ ".zip" := content r]> (files w1))
                   (sent w1 ++ [GET (download_url key h0)])).
  assert (Hrun : download P h apikey true verbose w
                 = match zip_entries P (content r) with
                   | inl e => (inl e, w2)
                   | inr ms =>
                       (extractall P ms "infected" ;;;
                        outpath2 <- first (namelist ms) ;;
                        unlink (h0 +:+ ".zip") ;;; ret (VStr outpath2)) w2
                   end).
  { rewrite (download_found_str P h apikey true verbose w w1 kv code h0)
      by assumption.
    rewrite Hlocal.
    unfold bind at 1. unfold lift at 1. rewrite Hkey.
    unfold bind at 1. unfold requests_get at 1. rewrite Hsrv, Hok.
    rewrite (truthy_str_ne _ Hbody). cbn [negb orb].
    unfold bind at 1. rewrite write_binary_ok by exact Hwrite. cbn [files sent].
    unfold bind at 1. unfold ZipFile at 1. unfold bind at 1.
    cbn [read_binary files]. rewrite lookup_insert_eq. unfold lift at 1.
    reflexivity. }
  rewrite Hrun. split.
  - intros [(e & Hz) | [Hz | (m0 & ms & path & e & Hz & Ht & Hm0)]]; rewrite Hz.
    + exists e, w2. split; [reflexivity |]. split; reflexivity.
    + exists IndexError, w2. split; [reflexivity |]. split; reflexivity.
    + exists e, w2. cbn [extractall]. rewrite Ht, Hm0.
      split; [reflexivity |]. split; reflexivity.
  - intros m0 ms path e partial Hz Ht Hm0 Hpath Hne.
    eexists. rewrite Hz. cbn [extractall]. rewrite Ht, Hm0.
    unfold bind at 1. unfold bind at 1. rewrite write_binary_ok by exact Hpath.
    split; [reflexivity |]. cbn [files sent].
    split; [| split; [apply lookup_insert_eq | reflexivity]].
    rewrite lookup_insert_ne by exact Hne. apply lookup_insert_eq.
Qed.

Lemma download_extract_failure_keeps_archive_witness :
  let P := Depot.platform_of "" (Sample.env_key "K") Depot.known_c0ffee
             (Response 200 "not a zip") Depot.unknown in
  ∃ e w2,
    download P "abc" "" true false Sample.empty_world = (inl e, w2)
    ∧ files w2 = <["c0ffee" +:+ ".zip" := "not a zip"]> ∅
    ∧ sent w2 = [GET (check_url "K" "abc")] ++ [GET (download_url "K" "c0ffee")].
Proof.
  intros P.
  refine (proj1 (download_extract_failure_keeps_archive P "abc" "" false
            Sample.empty_world (World ∅ [GET (check_url "K" "abc")])
            [("code", VInt 0); ("sha256hash", VStr "c0ffee")] (VInt 0)
            "c0ffee" "K" (Response 200 "not a zip")
            _ eq_refl eq_refl eq_refl eq_refl eq_refl eq_refl eq_refl eq_refl _ _) _).
  - intros E. discriminate E.
  - intros E. discriminate E.
  - intros fs. reflexivity.
  - left. exists (LibraryError "BadZipFile"). reflexivity.
Defined.

(** ** The loops of the other two modes *)

Lemma sends_try_except {A} (n : nat) (m : IO A) :
  sends_at_most n m → sends_at_most n (try_except m).
Proof.
  intros Hm w. destruct (Hm w) as (l & Hl & Hrest). exists l.
  split; [| exact Hrest]. rewrite <- Hl. unfold try_except.
  destruct (m w) as [[e | a] w1]; [destruct (is_Exception e) |]; reflexivity.
Qed.

Lemma sends_for_each {A} (n : nat) (body : A → IO unit) (l : list A) :
  (∀ x, sends_at_most n (body x)) →
  sends_at_most (n * length l) (for_each l body).
Proof.
  intros Hbody. induction l as [| x l IH].
  - apply (sends_weaken 0); [lia | apply sends_ret].
  - cbn [for_each length]. apply (sends_weaken (n + n * length l)); [lia |].
    apply sends_bind; [apply Hbody | intros _; exact IH].
Qed.

(** X19.  In [download] mode the command line sends at most two requests
    for each entry of the list, all of them [GET]s: it never uploads
    anything, whatever the service answers and whatever the archives
    hold. *)
Theorem main_download_sends (P : platform) (prog mode : string)
    (rest : list string) (w w1 : world) (st : settings) :
  Str.lower mode = "download" →
  settings_of P (prog :: mode :: rest) w = (inr st, w1) →
  ∃ l, sent (main P (prog :: mode :: rest) w).2 = sent w ++ l
       ∧ (length l ≤ 2 * length (hlist st))%nat
       ∧ Forall is_GET l.
Proof.
  intros Hmode Hst. cbn [main].
  rewrite (bind_returns _ _ _ _ _ Hst), Hmode. cbn [String.eqb Ascii.eqb Bool.eqb].
  apply settings_of_world in Hst. subst w1.
  apply (sends_for_each 2). intros h. apply sends_try_except.
  apply sends_download.
Qed.

Lemma main_download_sends_witness :
  let P := Depot.platform_of "" (Sample.env_key "K") Depot.known_c0ffee
             Depot.archive Depot.unknown in
  ∃ l, sent (main P ["jebio.py"; "download"; "-x"; "abc,def"] Sample.empty_world).2
       = [] ++ l
       ∧ (length l ≤ 2 * length (list_set ["abc"; "def"]))%nat
       ∧ Forall is_GET l.
Proof.
  intros P.
  refine (main_download_sends P "jebio.py" "download" ["-x"; "abc,def"]
            Sample.empty_world Sample.empty_world
            (Settings false true (list_set ["abc"; "def"])) eq_refl _).
  vm_compute. reflexivity.
Defined.

(** The request an entry of [upload] mode gives rise to, if its file is
    there. *)
Lemma for_each_upload (P : platform) (key : string) (verbose : bool)
    (l : list string) (w : world) :
  well_behaved P →
  getApikey P "" = inr key →
  for_each l (fun filepath => try_except (upload P filepath "" verbose)) w
  = (inr tt,
     World (files w)
       (sent w ++ omap (fun filepath =>
                          body ← files w !! filepath;
                          Some (POST (upload_url key) "ufile" body)) l)).
Proof.
  intros HP Hkey. revert w. induction l as [| f l IH]; intros w.
  - cbn. rewrite app_nil_r. now destruct w.
  - cbn [for_each omap list_omap]. unfold bind, try_except.
    pose proof (rx_upload P HP f "" verbose w) as Hrx.
    rewrite upload_unfold, Hkey in *.
    destruct (files w !! f) as [body |]; cbn [mbind option_bind].
    + destruct (match server P (sent w) (POST (upload_url key) "ufile" body) with
                | inl e => inl e
                | inr r => json_loads P (content r)
                end) as [e | v].
      * rewrite (Hrx e _ eq_refl), IH. cbn [files sent]. now rewrite <- app_assoc.
      * rewrite IH. cbn [files sent]. now rewrite <- app_assoc.
    + cbn [is_Exception]. rewrite IH. now destruct w.
Qed.

(** X20.  In [upload] mode with a key, the command line posts every
    entry whose file exists, once and in the order of the list, and
    skips the entries whose file is missing without stopping: the files
    listed after a missing one are still uploaded.  No file changes. *)
Theorem main_upload_log (P : platform) (prog mode : string) (rest : list string)
    (w w1 : world) (st : settings) (key : string) :
  well_behaved P →
  Str.lower mode = "upload" →
  getApikey P "" = inr key →
  settings_of P (prog :: mode :: rest) w = (inr st, w1) →
  main P (prog :: mode :: rest) w
  = (inr tt,
     World (files w)
       (sent w ++ omap (fun filepath =>
                          body ← files w !! filepath;
                          Some (POST (upload_url key) "ufile" body)) (hlist st))).
Proof.
  intros HP Hmode Hkey Hst. cbn [main].
  rewrite (bind_returns _ _ _ _ _ Hst), Hmode. cbn [String.eqb Ascii.eqb Bool.eqb].
  apply settings_of_world in Hst. subst w1.
  now apply for_each_upload.
Qed.

Lemma main_upload_log_witness :
  let P := Depot.platform_of "" (Sample.env_key "K") Depot.known_c0ffee
             Depot.archive (Response 200 (Sample.code_body "0")) in
  let w := World {[ "b.bin" := "MZ" ]} [] in
  main P ["jebio.py"; "upload"; "a.bin,b.bin"] w
  = (inr tt,
     World (files w)
       ([] ++ omap (fun filepath =>
                      body ← files w !! filepath;
                      Some (POST (upload_url "K") "ufile" body))
                (list_set ["a.bin"; "b.bin"]))).
Proof.
  intros P w.
  refine (main_upload_log P "jebio.py" "upload" ["a.bin,b.bin"] w w
            (Settings false false (list_set ["a.bin"; "b.bin"])) "K"
            (Depot_well_behaved _ _ _ _ _) eq_refl eq_refl _).
  vm_compute. reflexivity.
Defined.
